(** * StoryWeaver AI front end (src/frontend/app.js)

    A shallow embedding of the browser client: the PDF upload dialog and the
    [StoryWeaverApp] controller.  JavaScript strings are sequences of UTF-16
    code units, JSON bodies are values of [JsValue], the page is a record of
    the elements the script looks up by id (an element the page lacks is
    [None], as [getElementById] returns [null]), and every handler is a
    computation in a state-and-exception monad over that record.  A handler
    that awaits [fetch] takes the settled result of the request as an
    argument and is run to completion with it; what other handlers do
    while it waits is not part of the model.  Requests, timers, console
    lines and error notifications are logged in the state.  Scrolling, the
    wiring of the listeners, [selectStory] (whose selectors range over the
    whole document), the permissibility indicator and the formatting of
    timestamps are left out. *)

From Stdlib Require Import List String Ascii NArith ZArith Bool Lia.
Import ListNotations.

Set Warnings "-register-all".

(* ===================================================================== *)
(** ** JavaScript values *)
(* ===================================================================== *)

Module Js.

(** A string is its list of UTF-16 code units. *)
Definition jsstring := list N.

Definition lit (s : string) : jsstring :=
  List.map N_of_ascii (list_ascii_of_string s).

(** The double quote, for markup literals. *)
Definition dquote : jsstring := [34%N].

Definition jsstring_eq_dec : forall a b : jsstring, {a = b} + {a <> b} :=
  list_eq_dec N.eq_dec.

(** Equality of strings, code unit by code unit. *)
Fixpoint str_eqb (a b : jsstring) : bool :=
  match a, b with
  | [], [] => true
  | x :: a', y :: b' => (N.eqb x y && str_eqb a' b')%bool
  | _, _ => false
  end.

(** WhiteSpace and LineTerminator code units, as [String.prototype.trim]
    and [parseInt] strip them. *)
Definition is_js_whitespace (c : N) : bool :=
  (N.eqb c 9 || N.eqb c 10 || N.eqb c 11 || N.eqb c 12 || N.eqb c 13 ||
   N.eqb c 32 || N.eqb c 160 || N.eqb c 5760 ||
   (N.leb 8192 c && N.leb c 8202) ||
   N.eqb c 8232 || N.eqb c 8233 || N.eqb c 8239 || N.eqb c 8287 ||
   N.eqb c 12288 || N.eqb c 65279)%bool.

Fixpoint trimStart (s : jsstring) : jsstring :=
  match s with
  | [] => []
  | c :: rest => if is_js_whitespace c then trimStart rest else s
  end.

Definition trimEnd (s : jsstring) : jsstring := rev (trimStart (rev s)).

Definition trim (s : jsstring) : jsstring := trimEnd (trimStart s).

(** ASCII whitespace, which separates the tokens of a [class] attribute. *)
Definition is_ascii_whitespace (c : N) : bool :=
  (N.eqb c 9 || N.eqb c 10 || N.eqb c 12 || N.eqb c 13 || N.eqb c 32)%bool.

(** [classList]: the tokens of a class name. [cur] is the token being read,
    reversed. *)
Fixpoint tokens_from (cur : jsstring) (s : jsstring) : list jsstring :=
  match s with
  | [] => match cur with [] => [] | _ => [rev cur] end
  | c :: rest =>
      if is_ascii_whitespace c
      then match cur with
           | [] => tokens_from [] rest
           | _ => rev cur :: tokens_from [] rest
           end
      else tokens_from (c :: cur) rest
  end.

Definition classList (className : jsstring) : list jsstring :=
  tokens_from [] className.

Definition has_class (cls className : jsstring) : bool :=
  existsb (str_eqb cls) (classList className).

(** A number is kept by what this script can observe of it: whether
    ToBoolean finds it zero, and the text ToString gives for it. *)
Record JsNumber := { num_is_zero : bool; num_text : jsstring }.

(** Values that [JSON.parse] produces, and [undefined] for a property that
    is not there.  An object is the list of its own properties, each key
    once. *)
Inductive JsValue :=
| JUndefined
| JNull
| JBool (b : bool)
| JNum (n : JsNumber)
| JStr (s : jsstring)
| JArr (xs : list JsValue)
| JObj (fields : list (jsstring * JsValue)).

(** ToBoolean. *)
Definition truthy (v : JsValue) : bool :=
  match v with
  | JUndefined | JNull => false
  | JBool b => b
  | JNum n => negb (num_is_zero n)
  | JStr s => match s with [] => false | _ => true end
  | JArr _ | JObj _ => true
  end.

(** ToString; an array joins its elements with a comma, [null] and
    [undefined] elements giving the empty string. *)
Fixpoint to_string (v : JsValue) : jsstring :=
  match v with
  | JUndefined => lit "undefined"
  | JNull => lit "null"
  | JBool true => lit "true"
  | JBool false => lit "false"
  | JNum n => num_text n
  | JStr s => s
  | JArr xs =>
      (fix join (l : list JsValue) : jsstring :=
         match l with
         | [] => []
         | x :: rest =>
             let sx := match x with
                       | JUndefined | JNull => []
                       | _ => to_string x
                       end in
             match rest with
             | [] => sx
             | _ => sx ++ lit "," ++ join rest
             end
         end) xs
  | JObj _ => lit "[object Object]"
  end.

(** Conversion to a nullable DOMString, as the [textContent] setter does:
    [null] and [undefined] give the empty text. *)
Definition to_text_content (v : JsValue) : jsstring :=
  match v with
  | JUndefined | JNull => []
  | _ => to_string v
  end.

(** [v === 'lit'] for a string literal. *)
Definition strict_eq_str (v : JsValue) (s : jsstring) : bool :=
  match v with
  | JStr s' => str_eqb s' s
  | _ => false
  end.

Inductive JsError :=
| TypeError (message : jsstring)
| SyntaxError (message : jsstring)
| Error (message : jsstring).

Definition message (e : JsError) : jsstring :=
  match e with
  | TypeError m | SyntaxError m | Error m => m
  end.

Fixpoint lookup (key : jsstring) (fields : list (jsstring * JsValue))
  : option JsValue :=
  match fields with
  | [] => None
  | (k, v) :: rest => if str_eqb k key then Some v else lookup key rest
  end.

(** [v.key] for the data keys the script reads ([stories], [id], [title],
    [success], [data], [elements], [type], [name], [description],
    [content], [sender]): a TypeError on [null] and [undefined],
    [undefined] where the value has no such property. *)
Definition get_prop (v : JsValue) (key : jsstring) : JsError + JsValue :=
  match v with
  | JUndefined => inl (TypeError (lit "Cannot read properties of undefined"))
  | JNull => inl (TypeError (lit "Cannot read properties of null"))
  | JObj fields =>
      match lookup key fields with
      | Some x => inr x
      | None => inr JUndefined
      end
  | _ => inr JUndefined
  end.

(** *** parseInt *)

Definition digit_value (c : N) : option Z :=
  if (N.leb 48 c && N.leb c 57)%bool then Some (Z.of_N (c - 48))
  else if (N.leb 97 c && N.leb c 122)%bool then Some (Z.of_N (c - 87))
  else if (N.leb 65 c && N.leb c 90)%bool then Some (Z.of_N (c - 55))
  else None.

(** The longest prefix of digits of the radix, read as a number; [None]
    when there is no digit. *)
Fixpoint parse_digits (radix : Z) (acc : option Z) (s : jsstring)
  : option Z :=
  match s with
  | [] => acc
  | c :: rest =>
      match digit_value c with
      | Some d =>
          if Z.ltb d radix
          then parse_digits radix
                 (Some (match acc with
                        | Some a => a * radix + d
                        | None => d
                        end)%Z) rest
          else acc
      | None => acc
      end
  end.

(** [parseInt(s)] with no radix argument; [None] is NaN.  The result is
    the mathematical value of the digits. *)
Definition parseInt (s : jsstring) : option Z :=
  let s1 := trimStart s in
  let '(sign, s2) :=
    match s1 with
    | 45%N :: rest => ((-1)%Z, rest)
    | 43%N :: rest => (1%Z, rest)
    | _ => (1%Z, s1)
    end in
  let '(radix, s3) :=
    match s2 with
    | 48%N :: 120%N :: rest => (16%Z, rest)
    | 48%N :: 88%N :: rest => (16%Z, rest)
    | _ => (10%Z, s2)
    end in
  option_map (Z.mul sign) (parse_digits radix None s3).

End Js.
Import Js.

(* ===================================================================== *)
(** ** Handlers as computations: state and exceptions *)
(* ===================================================================== *)

Module Eff.

Inductive Result (S A : Type) :=
| Ok (a : A) (s : S)
| Threw (e : JsError) (s : S).
Arguments Ok {S A} a s.
Arguments Threw {S A} e s.

Definition M (S A : Type) := S -> Result S A.

Definition ret {S A} (a : A) : M S A := fun s => Ok a s.

Definition bind {S A B} (m : M S A) (k : A -> M S B) : M S B :=
  fun s => match m s with
           | Ok a s' => k a s'
           | Threw e s' => Threw e s'
           end.

Definition throw {S A} (e : JsError) : M S A := fun s => Threw e s.

Definition get {S} : M S S := fun s => Ok s s.

Definition gets {S A} (f : S -> A) : M S A := fun s => Ok (f s) s.

Definition modify {S} (f : S -> S) : M S unit := fun s => Ok tt (f s).

(** [try { body } catch (e) { handler e }] *)
Definition try_catch {S A} (body : M S A) (handler : JsError -> M S A)
  : M S A :=
  fun s => match body s with
           | Ok a s' => Ok a s'
           | Threw e s' => handler e s'
           end.

(** [try { body } finally { cleanup }]: the cleanup runs either way, and
    an exception of the body is thrown again after it. *)
Definition try_finally {S A} (body : M S A) (cleanup : M S unit) : M S A :=
  fun s => match body s with
           | Ok a s' =>
               match cleanup s' with
               | Ok _ s'' => Ok a s''
               | Threw e s'' => Threw e s''
               end
           | Threw e s' =>
               match cleanup s' with
               | Ok _ s'' => Threw e s''
               | Threw e' s'' => Threw e' s''
               end
           end.

(** Lift the result of a property read. *)
Definition lift {S A} (r : JsError + A) : M S A :=
  match r with
  | inl e => throw e
  | inr a => ret a
  end.

(** [xs.forEach(f)] on a list. *)
Fixpoint forEach {S A} (f : A -> M S unit) (xs : list A) : M S unit :=
  match xs with
  | [] => ret tt
  | x :: rest => bind (f x) (fun _ => forEach f rest)
  end.

Definition when {S} (b : bool) (m : M S unit) : M S unit :=
  if b then m else ret tt.

(** The state a computation ends in, whether it returned or threw. *)
Definition final {S A} (r : Result S A) : S :=
  match r with
  | Ok _ s => s
  | Threw _ s => s
  end.

Definition returned {S A} (r : Result S A) : bool :=
  match r with
  | Ok _ _ => true
  | Threw _ _ => false
  end.

(** A property of the state that a computation carries from its start to
    its end, whether it returns or throws. *)
Definition preserves {S A} (P : S -> Prop) (m : M S A) : Prop :=
  forall s, P s -> P (final (m s)).

End Eff.
Import Eff.

Declare Scope js_scope.
Delimit Scope js_scope with js.
Notation "x <- m ;; k" := (bind m (fun x => k))
  (at level 100, m at next level, right associativity) : js_scope.
Notation "m ;; k" := (bind m (fun _ => k))
  (at level 100, right associativity) : js_scope.
Open Scope js_scope.

(* ===================================================================== *)
(** ** The browser around the script: requests, timers, the console *)
(* ===================================================================== *)

Module Net.

Record File := { file_name : jsstring }.

Inductive Method := GET | POST.

(** The value a request carries: the object given to [JSON.stringify], or
    the form data. *)
Inductive Body :=
| NoBody
| MessageBody (content sender : jsstring)
| ExpansionBody (story_id new_content : jsstring) (page_number : option Z)
    (element_references : list jsstring)
| FormBody (field : jsstring) (file : File).

Record Request := { req_method : Method; req_url : jsstring; req_body : Body }.

(** What [response.json()] settles with. *)
Inductive Parsed :=
| ParseFailure (message : jsstring)
| Json (v : JsValue).

Record Response := { status : N; statusText : jsstring; body : Parsed }.

(** [response.ok]: the status is in the range 200-299. *)
Definition ok (r : Response) : bool :=
  (N.leb 200 (status r) && N.leb (status r) 299)%bool.

(** How the promise of [fetch] settles. *)
Inductive Settled :=
| Rejected (message : jsstring)
| Fulfilled (r : Response).

(** What [setTimeout] was asked to run. *)
Inductive Task :=
| RunLoadMessages
| RemoveErrorDiv (node : nat)
| ReloadPage.

Definition Timer := (N * Task)%type.

(** A line of [console.error]: its text and the error logged with it, if
    any. *)
Definition ConsoleLine := (jsstring * option JsError)%type.

End Net.
Import Net.

(** [await fetch(...)]: the request goes out, and the promise settles as
    the network decides; a rejection is thrown at the [await]. *)
Definition fetch_with {S} (log : Request -> S -> S) (rq : Request)
  (net : Settled) : M S Response :=
  modify (log rq) ;;
  match net with
  | Rejected m => throw (TypeError m)
  | Fulfilled r => ret r
  end.

(** [await response.json()] *)
Definition json {S} (r : Response) : M S JsValue :=
  match body r with
  | ParseFailure m => throw (SyntaxError m)
  | Json v => ret v
  end.

(** The error thrown when the request does not bring JSON: it was
    rejected, or the body does not parse. *)
Definition transport_failure (net : Settled) : option JsError :=
  match net with
  | Rejected m => Some (TypeError m)
  | Fulfilled r =>
      match body r with
      | ParseFailure m => Some (SyntaxError m)
      | Json _ => None
      end
  end.

(* ===================================================================== *)
(** ** The PDF upload dialog (app.js, lines 1-177) *)
(* ===================================================================== *)

Module UploadFlow.

(** [uploadStatus]: its text and [style.color]. *)
Record StatusLine := { textContent : jsstring; color : jsstring }.

(** The elements the script found when the page was ready, each with the
    properties the handlers touch. *)
Record Dialog := {
  pdfUploadModal : option jsstring;        (* style.display *)
  pdfFileInput : option (option File);     (* files[0] *)
  selectedFileName : option jsstring;      (* textContent *)
  confirmUploadBtn : option bool;          (* disabled *)
  cancelUploadBtn : option bool;           (* disabled *)
  uploadProgress : option jsstring;        (* style.display *)
  progressBar : option jsstring;           (* style.width *)
  uploadStatus : option StatusLine;
  requests : list Request;
  timers : list Timer;
  console : list ConsoleLine
}.

Definition set_pdfUploadModal v (d : Dialog) : Dialog :=
  {| pdfUploadModal := v; pdfFileInput := pdfFileInput d;
     selectedFileName := selectedFileName d;
     confirmUploadBtn := confirmUploadBtn d;
     cancelUploadBtn := cancelUploadBtn d;
     uploadProgress := uploadProgress d; progressBar := progressBar d;
     uploadStatus := uploadStatus d; requests := requests d;
     timers := timers d; console := console d |}.

Definition set_pdfFileInput v (d : Dialog) : Dialog :=
  {| pdfUploadModal := pdfUploadModal d; pdfFileInput := v;
     selectedFileName := selectedFileName d;
     confirmUploadBtn := confirmUploadBtn d;
     cancelUploadBtn := cancelUploadBtn d;
     uploadProgress := uploadProgress d; progressBar := progressBar d;
     uploadStatus := uploadStatus d; requests := requests d;
     timers := timers d; console := console d |}.

Definition set_selectedFileName v (d : Dialog) : Dialog :=
  {| pdfUploadModal := pdfUploadModal d; pdfFileInput := pdfFileInput d;
     selectedFileName := v;
     confirmUploadBtn := confirmUploadBtn d;
     cancelUploadBtn := cancelUploadBtn d;
     uploadProgress := uploadProgress d; progressBar := progressBar d;
     uploadStatus := uploadStatus d; requests := requests d;
     timers := timers d; console := console d |}.

Definition set_confirmUploadBtn v (d : Dialog) : Dialog :=
  {| pdfUploadModal := pdfUploadModal d; pdfFileInput := pdfFileInput d;
     selectedFileName := selectedFileName d;
     confirmUploadBtn := v;
     cancelUploadBtn := cancelUploadBtn d;
     uploadProgress := uploadProgress d; progressBar := progressBar d;
     uploadStatus := uploadStatus d; requests := requests d;
     timers := timers d; console := console d |}.

Definition set_cancelUploadBtn v (d : Dialog) : Dialog :=
  {| pdfUploadModal := pdfUploadModal d; pdfFileInput := pdfFileInput d;
     selectedFileName := selectedFileName d;
     confirmUploadBtn := confirmUploadBtn d;
     cancelUploadBtn := v;
     uploadProgress := uploadProgress d; progressBar := progressBar d;
     uploadStatus := uploadStatus d; requests := requests d;
     timers := timers d; console := console d |}.

Definition set_uploadProgress v (d : Dialog) : Dialog :=
  {| pdfUploadModal := pdfUploadModal d; pdfFileInput := pdfFileInput d;
     selectedFileName := selectedFileName d;
     confirmUploadBtn := confirmUploadBtn d;
     cancelUploadBtn := cancelUploadBtn d;
     uploadProgress := v; progressBar := progressBar d;
     uploadStatus := uploadStatus d; requests := requests d;
     timers := timers d; console := console d |}.

Definition set_progressBar v (d : Dialog) : Dialog :=
  {| pdfUploadModal := pdfUploadModal d; pdfFileInput := pdfFileInput d;
     selectedFileName := selectedFileName d;
     confirmUploadBtn := confirmUploadBtn d;
     cancelUploadBtn := cancelUploadBtn d;
     uploadProgress := uploadProgress d; progressBar := v;
     uploadStatus := uploadStatus d; requests := requests d;
     timers := timers d; console := console d |}.

Definition set_uploadStatus v (d : Dialog) : Dialog :=
  {| pdfUploadModal := pdfUploadModal d; pdfFileInput := pdfFileInput d;
     selectedFileName := selectedFileName d;
     confirmUploadBtn := confirmUploadBtn d;
     cancelUploadBtn := cancelUploadBtn d;
     uploadProgress := uploadProgress d; progressBar := progressBar d;
     uploadStatus := v; requests := requests d;
     timers := timers d; console := console d |}.

Definition set_requests v (d : Dialog) : Dialog :=
  {| pdfUploadModal := pdfUploadModal d; pdfFileInput := pdfFileInput d;
     selectedFileName := selectedFileName d;
     confirmUploadBtn := confirmUploadBtn d;
     cancelUploadBtn := cancelUploadBtn d;
     uploadProgress := uploadProgress d; progressBar := progressBar d;
     uploadStatus := uploadStatus d; requests := v;
     timers := timers d; console := console d |}.

Definition set_timers v (d : Dialog) : Dialog :=
  {| pdfUploadModal := pdfUploadModal d; pdfFileInput := pdfFileInput d;
     selectedFileName := selectedFileName d;
     confirmUploadBtn := confirmUploadBtn d;
     cancelUploadBtn := cancelUploadBtn d;
     uploadProgress := uploadProgress d; progressBar := progressBar d;
     uploadStatus := uploadStatus d; requests := requests d;
     timers := v; console := console d |}.

Definition set_console v (d : Dialog) : Dialog :=
  {| pdfUploadModal := pdfUploadModal d; pdfFileInput := pdfFileInput d;
     selectedFileName := selectedFileName d;
     confirmUploadBtn := confirmUploadBtn d;
     cancelUploadBtn := cancelUploadBtn d;
     uploadProgress := uploadProgress d; progressBar := progressBar d;
     uploadStatus := uploadStatus d; requests := requests d;
     timers := timers d; console := v |}.

(** [if (el) el.prop = v]: the assignment happens when the element is
    there. *)
Definition assign {A} (v : A) (el : option A) : option A :=
  option_map (fun _ => v) el.

Definition fetch := fetch_with (fun rq d => set_requests (requests d ++ [rq]) d).

Definition setTimeout (t : Task) (delay : N) : M Dialog unit :=
  modify (fun d => set_timers (timers d ++ [(delay, t)]) d).

Definition console_error (label : jsstring) (e : JsError) : M Dialog unit :=
  modify (fun d => set_console (console d ++ [(label, Some e)]) d).

(** Click on the upload button (lines 26-32); the listener is there when
    the button is. *)
Definition openModal : M Dialog unit :=
  modify (fun d => set_pdfUploadModal (assign (lit "block") (pdfUploadModal d)) d).

(** Click on the close mark, or outside on the modal itself (lines 38-51). *)
Definition dismissModal : M Dialog unit :=
  modify (fun d => set_pdfUploadModal (assign (lit "none") (pdfUploadModal d)) d).

(** [change] on the file input (lines 62-81), with the file the user chose
    or [None] for an emptied selection. *)
Definition fileChanged (chosen : option File) : M Dialog unit :=
  d <- get ;;
  match pdfFileInput d with
  | None => ret tt
  | Some _ =>
      modify (set_pdfFileInput (Some chosen)) ;;
      match chosen with
      | Some file =>
          modify (fun d => set_selectedFileName
                             (assign (file_name file) (selectedFileName d)) d) ;;
          modify (fun d => set_confirmUploadBtn
                             (assign false (confirmUploadBtn d)) d)
      | None =>
          modify (fun d => set_selectedFileName
                             (assign (lit "No file selected") (selectedFileName d)) d) ;;
          modify (fun d => set_confirmUploadBtn
                             (assign true (confirmUploadBtn d)) d)
      end
  end.

Definition set_status_text (t : jsstring) (d : Dialog) : Dialog :=
  set_uploadStatus
    (option_map (fun st => {| textContent := t; color := color st |})
       (uploadStatus d)) d.

Definition set_status (t c : jsstring) (d : Dialog) : Dialog :=
  set_uploadStatus (assign {| textContent := t; color := c |} (uploadStatus d)) d.

(** Click on the confirm button (lines 84-144); the listener is there
    when the button is. *)
Definition confirmUpload (net : Settled) : M Dialog unit :=
  d <- get ;;
  match confirmUploadBtn d with
  | None => ret tt
  | Some _ =>
      match pdfFileInput d with
      | None | Some None => ret tt
      | Some (Some file) =>
          try_finally
            (try_catch
               (modify (fun d => set_uploadProgress
                                   (assign (lit "block") (uploadProgress d)) d) ;;
                modify (fun d => set_confirmUploadBtn
                                   (assign true (confirmUploadBtn d)) d) ;;
                modify (fun d => set_cancelUploadBtn
                                   (assign true (cancelUploadBtn d)) d) ;;
                response <- fetch {| req_method := POST;
                                     req_url := lit "/api/upload-pdf/";
                                     req_body := FormBody (lit "file") file |}
                              net ;;
                (if negb (ok response)
                 then throw (Error (lit "Upload failed: " ++ statusText response))
                 else ret tt) ;;
                data <- json response ;;
                modify (fun d => set_progressBar
                                   (assign (lit "100%") (progressBar d)) d) ;;
                modify (set_status_text
                          (lit "Upload successful! Loading story...")) ;;
                setTimeout ReloadPage 1000)
               (fun error =>
                  console_error (lit "Error uploading PDF:") error ;;
                  modify (set_status (lit "Error: " ++ message error)
                            (lit "red"))))
            (modify (fun d => set_confirmUploadBtn
                                (assign false (confirmUploadBtn d)) d) ;;
             modify (fun d => set_cancelUploadBtn
                                (assign false (cancelUploadBtn d)) d))
      end
  end.

(** Click on the cancel button (lines 147-175); the listener is there
    when the button is. *)
Definition cancelUpload : M Dialog unit :=
  d <- get ;;
  match cancelUploadBtn d with
  | None => ret tt
  | Some _ =>
      modify (fun d => set_pdfFileInput (assign None (pdfFileInput d)) d) ;;
      modify (fun d => set_selectedFileName
                         (assign (lit "No file selected") (selectedFileName d)) d) ;;
      modify (fun d => set_uploadProgress
                         (assign (lit "none") (uploadProgress d)) d) ;;
      modify (fun d => set_progressBar (assign (lit "0%") (progressBar d)) d) ;;
      modify (set_status (lit "Uploading...") []) ;;
      modify (fun d => set_confirmUploadBtn
                         (assign true (confirmUploadBtn d)) d) ;;
      modify (fun d => set_pdfUploadModal
                         (assign (lit "none") (pdfUploadModal d)) d)
  end.

Definition present {A} (el : option A) : bool :=
  match el with
  | Some _ => true
  | None => false
  end.

(** The page has every element of the dialog. *)
Definition complete (d : Dialog) : bool :=
  (present (pdfUploadModal d) && present (pdfFileInput d) &&
   present (selectedFileName d) && present (confirmUploadBtn d) &&
   present (cancelUploadBtn d) && present (uploadProgress d) &&
   present (progressBar d) && present (uploadStatus d))%bool.

(** The dialog as the page first shows it: closed, nothing chosen. *)
Definition idle : Dialog :=
  {| pdfUploadModal := Some (lit "none"); pdfFileInput := Some None;
     selectedFileName := Some (lit "No file selected");
     confirmUploadBtn := Some true; cancelUploadBtn := Some false;
     uploadProgress := Some (lit "none"); progressBar := Some (lit "0%");
     uploadStatus := Some {| textContent := lit "Uploading..."; color := [] |};
     requests := []; timers := []; console := [] |}.

Definition story_pdf : File := {| file_name := lit "story.pdf" |}.

(** The dialog open, with a file chosen. *)
Definition ready : Dialog :=
  final ((openModal ;; fileChanged (Some story_pdf)) idle).

Definition server_error : Response :=
  {| status := 500; statusText := lit "Internal Server Error";
     body := ParseFailure (lit "Unexpected token < in JSON") |}.

(** *** The dialog under a sequence of events *)

Inductive Event :=
| UploadClicked
| Dismissed
| FileChosen (chosen : option File)
| ConfirmClicked (net : Settled)
| CancelClicked.

Definition handle (e : Event) : M Dialog unit :=
  match e with
  | UploadClicked => openModal
  | Dismissed => dismissModal
  | FileChosen chosen => fileChanged chosen
  | ConfirmClicked net => confirmUpload net
  | CancelClicked => cancelUpload
  end.

(** The events are handled one after the other, each from the state the
    one before left. *)
Fixpoint dispatch (events : list Event) (d : Dialog) : Dialog :=
  match events with
  | [] => d
  | e :: rest => dispatch rest (final (handle e d))
  end.


Definition upload_request (file : File) : Request :=
  {| req_method := POST; req_url := lit "/api/upload-pdf/";
     req_body := FormBody (lit "file") file |}.

(** The dialog after an upload that the server refused. *)
Definition refused : Dialog :=
  final (confirmUpload (Fulfilled server_error) ready).

Definition accepted : Response :=
  {| status := 200; statusText := lit "OK"; body := Json (JObj []) |}.

End UploadFlow.

(* ===================================================================== *)
(** ** StoryWeaverApp (app.js, lines 179-607) *)
(* ===================================================================== *)

Module App.

(** [this.currentStory = { id, title }] *)
Record Story := { story_id : jsstring; story_title : jsstring }.

(** An entry of [this.messages]. *)
Record Message := {
  msg_text : JsValue;
  msg_sender : JsValue;
  msg_timestamp : N
}.

(** A child of the transcript container: a message, with its class name,
    the markup of its avatar, the name shown and the text; or a system
    notice, whose class is [system-message]. *)
Inductive Node :=
| MessageDiv (className avatar name text : jsstring)
| SystemDiv (text : jsstring).

Record Button := { disabled : bool; innerHTML : jsstring }.

(** An entry of the story list: a [div] with its data id, an icon and a
    [span] with the title. *)
Record StoryItem := {
  item_className : jsstring;
  item_data_id : jsstring;
  icon_className : jsstring;
  span_textContent : jsstring
}.

(** The controller's fields, the elements it looks up by id, and what it
    has asked of the browser. *)
Record World := {
  currentStory : option Story;
  messages : list Message;
  chat_messages : option (list Node);   (* children of #chat-messages *)
  message_input : option jsstring;   (* value of #message-input *)
  send_btn : option Button;
  stories_list : option (list StoryItem);   (* children of #stories-list *)
  characters_list : option (list jsstring);   (* text of each li *)
  locations_list : option (list jsstring);   (* text of each li *)
  rules_list : option (list jsstring);   (* text of each li *)
  expansion_modal : option jsstring;   (* style.display *)
  expansion_text : option jsstring;   (* value *)
  expansion_page : option jsstring;   (* value *)
  error_divs : list (nat * jsstring);   (* error notifications in the body *)
  next_node : nat;   (* identity of the next created notification *)
  requests : list Request;
  timers : list Timer;
  console : list ConsoleLine;
  clock : N   (* what new Date() reads *)
}.

Definition set_messages v (w : World) : World :=
  {| currentStory := currentStory w; messages := v;
     chat_messages := chat_messages w; message_input := message_input w;
     send_btn := send_btn w; stories_list := stories_list w;
     characters_list := characters_list w;
     locations_list := locations_list w; rules_list := rules_list w;
     expansion_modal := expansion_modal w;
     expansion_text := expansion_text w; expansion_page := expansion_page w;
     error_divs := error_divs w; next_node := next_node w;
     requests := requests w; timers := timers w; console := console w;
     clock := clock w |}.

Definition set_chat_messages v (w : World) : World :=
  {| currentStory := currentStory w; messages := messages w;
     chat_messages := v; message_input := message_input w;
     send_btn := send_btn w; stories_list := stories_list w;
     characters_list := characters_list w;
     locations_list := locations_list w; rules_list := rules_list w;
     expansion_modal := expansion_modal w;
     expansion_text := expansion_text w; expansion_page := expansion_page w;
     error_divs := error_divs w; next_node := next_node w;
     requests := requests w; timers := timers w; console := console w;
     clock := clock w |}.

Definition set_message_input v (w : World) : World :=
  {| currentStory := currentStory w; messages := messages w;
     chat_messages := chat_messages w; message_input := v;
     send_btn := send_btn w; stories_list := stories_list w;
     characters_list := characters_list w;
     locations_list := locations_list w; rules_list := rules_list w;
     expansion_modal := expansion_modal w;
     expansion_text := expansion_text w; expansion_page := expansion_page w;
     error_divs := error_divs w; next_node := next_node w;
     requests := requests w; timers := timers w; console := console w;
     clock := clock w |}.

Definition set_send_btn v (w : World) : World :=
  {| currentStory := currentStory w; messages := messages w;
     chat_messages := chat_messages w; message_input := message_input w;
     send_btn := v; stories_list := stories_list w;
     characters_list := characters_list w;
     locations_list := locations_list w; rules_list := rules_list w;
     expansion_modal := expansion_modal w;
     expansion_text := expansion_text w; expansion_page := expansion_page w;
     error_divs := error_divs w; next_node := next_node w;
     requests := requests w; timers := timers w; console := console w;
     clock := clock w |}.

Definition set_stories_list v (w : World) : World :=
  {| currentStory := currentStory w; messages := messages w;
     chat_messages := chat_messages w; message_input := message_input w;
     send_btn := send_btn w; stories_list := v;
     characters_list := characters_list w;
     locations_list := locations_list w; rules_list := rules_list w;
     expansion_modal := expansion_modal w;
     expansion_text := expansion_text w; expansion_page := expansion_page w;
     error_divs := error_divs w; next_node := next_node w;
     requests := requests w; timers := timers w; console := console w;
     clock := clock w |}.

Definition set_characters_list v (w : World) : World :=
  {| currentStory := currentStory w; messages := messages w;
     chat_messages := chat_messages w; message_input := message_input w;
     send_btn := send_btn w; stories_list := stories_list w;
     characters_list := v; locations_list := locations_list w;
     rules_list := rules_list w; expansion_modal := expansion_modal w;
     expansion_text := expansion_text w; expansion_page := expansion_page w;
     error_divs := error_divs w; next_node := next_node w;
     requests := requests w; timers := timers w; console := console w;
     clock := clock w |}.

Definition set_locations_list v (w : World) : World :=
  {| currentStory := currentStory w; messages := messages w;
     chat_messages := chat_messages w; message_input := message_input w;
     send_btn := send_btn w; stories_list := stories_list w;
     characters_list := characters_list w; locations_list := v;
     rules_list := rules_list w; expansion_modal := expansion_modal w;
     expansion_text := expansion_text w; expansion_page := expansion_page w;
     error_divs := error_divs w; next_node := next_node w;
     requests := requests w; timers := timers w; console := console w;
     clock := clock w |}.

Definition set_rules_list v (w : World) : World :=
  {| currentStory := currentStory w; messages := messages w;
     chat_messages := chat_messages w; message_input := message_input w;
     send_btn := send_btn w; stories_list := stories_list w;
     characters_list := characters_list w;
     locations_list := locations_list w; rules_list := v;
     expansion_modal := expansion_modal w;
     expansion_text := expansion_text w; expansion_page := expansion_page w;
     error_divs := error_divs w; next_node := next_node w;
     requests := requests w; timers := timers w; console := console w;
     clock := clock w |}.

Definition set_expansion_modal v (w : World) : World :=
  {| currentStory := currentStory w; messages := messages w;
     chat_messages := chat_messages w; message_input := message_input w;
     send_btn := send_btn w; stories_list := stories_list w;
     characters_list := characters_list w;
     locations_list := locations_list w; rules_list := rules_list w;
     expansion_modal := v; expansion_text := expansion_text w;
     expansion_page := expansion_page w; error_divs := error_divs w;
     next_node := next_node w; requests := requests w; timers := timers w;
     console := console w; clock := clock w |}.

Definition set_expansion_text v (w : World) : World :=
  {| currentStory := currentStory w; messages := messages w;
     chat_messages := chat_messages w; message_input := message_input w;
     send_btn := send_btn w; stories_list := stories_list w;
     characters_list := characters_list w;
     locations_list := locations_list w; rules_list := rules_list w;
     expansion_modal := expansion_modal w; expansion_text := v;
     expansion_page := expansion_page w; error_divs := error_divs w;
     next_node := next_node w; requests := requests w; timers := timers w;
     console := console w; clock := clock w |}.

Definition set_error_divs v (w : World) : World :=
  {| currentStory := currentStory w; messages := messages w;
     chat_messages := chat_messages w; message_input := message_input w;
     send_btn := send_btn w; stories_list := stories_list w;
     characters_list := characters_list w;
     locations_list := locations_list w; rules_list := rules_list w;
     expansion_modal := expansion_modal w;
     expansion_text := expansion_text w; expansion_page := expansion_page w;
     error_divs := v; next_node := next_node w; requests := requests w;
     timers := timers w; console := console w; clock := clock w |}.

Definition set_next_node v (w : World) : World :=
  {| currentStory := currentStory w; messages := messages w;
     chat_messages := chat_messages w; message_input := message_input w;
     send_btn := send_btn w; stories_list := stories_list w;
     characters_list := characters_list w;
     locations_list := locations_list w; rules_list := rules_list w;
     expansion_modal := expansion_modal w;
     expansion_text := expansion_text w; expansion_page := expansion_page w;
     error_divs := error_divs w; next_node := v; requests := requests w;
     timers := timers w; console := console w; clock := clock w |}.

Definition set_requests v (w : World) : World :=
  {| currentStory := currentStory w; messages := messages w;
     chat_messages := chat_messages w; message_input := message_input w;
     send_btn := send_btn w; stories_list := stories_list w;
     characters_list := characters_list w;
     locations_list := locations_list w; rules_list := rules_list w;
     expansion_modal := expansion_modal w;
     expansion_text := expansion_text w; expansion_page := expansion_page w;
     error_divs := error_divs w; next_node := next_node w; requests := v;
     timers := timers w; console := console w; clock := clock w |}.

Definition set_timers v (w : World) : World :=
  {| currentStory := currentStory w; messages := messages w;
     chat_messages := chat_messages w; message_input := message_input w;
     send_btn := send_btn w; stories_list := stories_list w;
     characters_list := characters_list w;
     locations_list := locations_list w; rules_list := rules_list w;
     expansion_modal := expansion_modal w;
     expansion_text := expansion_text w; expansion_page := expansion_page w;
     error_divs := error_divs w; next_node := next_node w;
     requests := requests w; timers := v; console := console w;
     clock := clock w |}.

Definition set_console v (w : World) : World :=
  {| currentStory := currentStory w; messages := messages w;
     chat_messages := chat_messages w; message_input := message_input w;
     send_btn := send_btn w; stories_list := stories_list w;
     characters_list := characters_list w;
     locations_list := locations_list w; rules_list := rules_list w;
     expansion_modal := expansion_modal w;
     expansion_text := expansion_text w; expansion_page := expansion_page w;
     error_divs := error_divs w; next_node := next_node w;
     requests := requests w; timers := timers w; console := v;
     clock := clock w |}.

Definition set_expansion_page v (w : World) : World :=
  {| currentStory := currentStory w; messages := messages w;
     chat_messages := chat_messages w; message_input := message_input w;
     send_btn := send_btn w; stories_list := stories_list w;
     characters_list := characters_list w;
     locations_list := locations_list w; rules_list := rules_list w;
     expansion_modal := expansion_modal w;
     expansion_text := expansion_text w; expansion_page := v;
     error_divs := error_divs w; next_node := next_node w;
     requests := requests w; timers := timers w; console := console w;
     clock := clock w |}.

Definition set_currentStory v (w : World) : World :=
  {| currentStory := v; messages := messages w;
     chat_messages := chat_messages w; message_input := message_input w;
     send_btn := send_btn w; stories_list := stories_list w;
     characters_list := characters_list w;
     locations_list := locations_list w; rules_list := rules_list w;
     expansion_modal := expansion_modal w;
     expansion_text := expansion_text w; expansion_page := expansion_page w;
     error_divs := error_divs w; next_node := next_node w;
     requests := requests w; timers := timers w; console := console w;
     clock := clock w |}.

Definition apiBase : jsstring := lit "http://localhost:8000/api".

Definition fetch := fetch_with (fun rq w => set_requests (requests w ++ [rq]) w).

Definition setTimeout (t : Task) (delay : N) : M World unit :=
  modify (fun w => set_timers (timers w ++ [(delay, t)]) w).

Definition console_error (label : jsstring) (e : option JsError)
  : M World unit :=
  modify (fun w => set_console (console w ++ [(label, e)]) w).

(** Reading a property of what [getElementById] returned, with no guard. *)
Definition deref {A} (el : option A) : M World A :=
  match el with
  | Some a => ret a
  | None => throw (TypeError (lit "Cannot read properties of null"))
  end.

(** [v.forEach(f)]: only arrays have it. *)
Definition js_forEach (v : JsValue) (f : JsValue -> M World unit)
  : M World unit :=
  match v with
  | JArr xs => forEach f xs
  | _ => throw (TypeError (lit "forEach is not a function"))
  end.

Fixpoint filterM (p : JsValue -> M World bool) (xs : list JsValue)
  : M World (list JsValue) :=
  match xs with
  | [] => ret []
  | x :: rest =>
      keep <- p x ;;
      kept <- filterM p rest ;;
      ret (if keep then x :: kept else kept)
  end.

(** [v.filter(p)]: only arrays have it. *)
Definition js_filter (v : JsValue) (p : JsValue -> M World bool)
  : M World (list JsValue) :=
  match v with
  | JArr xs => filterM p xs
  | _ => throw (TypeError (lit "filter is not a function"))
  end.

(** *** Notifications (lines 586-600) *)

Definition showError (msg : jsstring) : M World unit :=
  w <- get ;;
  let errorDiv := next_node w in
  modify (set_next_node (S errorDiv)) ;;
  modify (fun w => set_error_divs (error_divs w ++ [(errorDiv, msg)]) w) ;;
  setTimeout (RemoveErrorDiv errorDiv) 3000.

(** The timer of [showError]: the notification leaves the body if it is
    still there. *)
Definition removeErrorDiv (errorDiv : nat) : M World unit :=
  modify (fun w =>
            set_error_divs
              (filter (fun d => negb (Nat.eqb (fst d) errorDiv)) (error_divs w))
              w).

(** *** The transcript (lines 440-488) *)

Definition robot_icon : jsstring :=
  lit "<i class=" ++ dquote ++ lit "fas fa-robot" ++ dquote ++ lit "></i>".

Definition user_icon : jsstring :=
  lit "<i class=" ++ dquote ++ lit "fas fa-user" ++ dquote ++ lit "></i>".

(** The element [addMessage] builds. *)
Definition messageDiv (text sender : JsValue) : Node :=
  MessageDiv (lit "message " ++ to_string sender)
    (if strict_eq_str sender (lit "bot") then robot_icon else user_icon)
    (if strict_eq_str sender (lit "bot") then lit "StoryBot" else lit "You")
    (to_text_content text).

Definition addMessage (text sender : JsValue) : M World unit :=
  w <- get ;;
  match chat_messages w with
  | None => ret tt
  | Some nodes =>
      modify (set_chat_messages (Some (nodes ++ [messageDiv text sender]))) ;;
      modify (fun w =>
                set_messages
                  (messages w ++ [{| msg_text := text; msg_sender := sender;
                                     msg_timestamp := clock w |}]) w)
  end.

Definition welcome_text : jsstring :=
  lit "Hello! I'm here to help you explore and expand children's stories. Please select a story to begin.".

Definition addWelcomeMessage : M World unit :=
  addMessage (JStr welcome_text) (JStr (lit "bot")).

Definition addSystemMessage (text : jsstring) : M World unit :=
  w <- get ;;
  match chat_messages w with
  | None => ret tt
  | Some nodes => modify (set_chat_messages (Some (nodes ++ [SystemDiv text])))
  end.

Definition node_className (n : Node) : jsstring :=
  match n with
  | MessageDiv c _ _ _ => c
  | SystemDiv _ => lit "system-message"
  end.

(** Whether the selector [.message.bot] matches the element.  The parts
    inside a message ([avatar], [content], [name], [text], the icon) never
    carry the class [message], so only the children of the container can
    match. *)
Definition matches_message_bot (n : Node) : bool :=
  (has_class (lit "message") (node_className n) &&
   has_class (lit "bot") (node_className n))%bool.

(** [container.querySelector('.message.bot')]: the first match in document
    order. *)
Definition querySelector_message_bot (nodes : list Node) : option Node :=
  find matches_message_bot nodes.

(** *** The send button (lines 570-584) *)

Definition showLoading : M World unit :=
  modify (fun w =>
            set_send_btn
              (option_map
                 (fun _ => {| disabled := true;
                              innerHTML :=
                                lit "<i class=" ++ dquote
                                  ++ lit "fas fa-spinner fa-spin" ++ dquote
                                  ++ lit "></i> Sending..." |})
                 (send_btn w)) w).

Definition hideLoading : M World unit :=
  modify (fun w =>
            set_send_btn
              (option_map
                 (fun _ => {| disabled := false;
                              innerHTML :=
                                lit "<i class=" ++ dquote
                                  ++ lit "fas fa-paper-plane" ++ dquote
                                  ++ lit "></i> Send" |})
                 (send_btn w)) w).

(** *** Messages (lines 364-438) *)

Definition messages_url (story : Story) : jsstring :=
  apiBase ++ lit "/stories/" ++ story_id story ++ lit "/messages".

(** The callback of [messages.forEach] in [loadMessages]:
    [msg => this.addMessage(msg.content, msg.sender)]. *)
Definition add_fetched (msg : JsValue) : M World unit :=
  content <- lift (get_prop msg (lit "content")) ;;
  sender <- lift (get_prop msg (lit "sender")) ;;
  addMessage content sender.

Definition loadMessages (net : Settled) : M World unit :=
  w <- get ;;
  match currentStory w with
  | None => ret tt
  | Some story =>
      try_catch
        (response <- fetch {| req_method := GET;
                              req_url := messages_url story;
                              req_body := NoBody |} net ;;
         msgs <- json response ;;
         w <- get ;;
         match chat_messages w with
         | None => ret tt
         | Some nodes =>
             let welcomeMsg := querySelector_message_bot nodes in
             modify (set_chat_messages (Some [])) ;;
             match welcomeMsg with
             | Some el => modify (set_chat_messages (Some [el]))
             | None => ret tt
             end ;;
             js_forEach msgs add_fetched
         end)
        (fun error =>
           console_error (lit "Error loading messages:") (Some error))
  end.

Definition sendMessage (net : Settled) : M World unit :=
  w <- get ;;
  value <- deref (message_input w) ;;
  let message := trim value in
  match message with
  | [] => ret tt
  | _ =>
      match currentStory w with
      | None => showError (lit "Please select a story first.")
      | Some story =>
          addMessage (JStr message) (JStr (lit "user")) ;;
          modify (set_message_input (Some [])) ;;
          showLoading ;;
          try_finally
            (try_catch
               (response <- fetch {| req_method := POST;
                                     req_url := messages_url story;
                                     req_body :=
                                       MessageBody message (lit "user") |}
                              net ;;
                data <- json response ;;
                if ok response
                then setTimeout RunLoadMessages 500
                else showError (lit "Failed to send message. Please try again."))
               (fun error =>
                  console_error (lit "Error sending message:") (Some error) ;;
                  showError
                    (lit "Failed to send message. Please check your connection.")))
            hideLoading
      end
  end.

(** *** Clearing the chat (lines 548-555) *)

Definition clearChat : M World unit :=
  w <- get ;;
  match chat_messages w with
  | None => ret tt
  | Some _ =>
      modify (set_chat_messages (Some [])) ;;
      modify (set_messages []) ;;
      addWelcomeMessage
  end.

(** *** The story list (lines 256-300) *)

(** The callback of [stories.forEach] in [populateStoriesList]: the entry
    is built from [story.id] and [story.title] and appended. *)
Definition add_story (story : JsValue) : M World unit :=
  id <- lift (get_prop story (lit "id")) ;;
  title <- lift (get_prop story (lit "title")) ;;
  modify (fun w =>
            set_stories_list
              (option_map
                 (fun items =>
                    items ++
                      [{| item_className := lit "story-item";
                          item_data_id := to_string id;
                          icon_className := lit "fas fa-book";
                          span_textContent := to_text_content title |}])
                 (stories_list w)) w).

Definition populateStoriesList (stories : JsValue) : M World unit :=
  w <- get ;;
  match stories_list w with
  | None => ret tt
  | Some _ =>
      modify (set_stories_list (Some [])) ;;
      js_forEach stories add_story
  end.

Definition load_stories_failed : jsstring :=
  lit "Failed to load stories. Please try again.".

Definition loadStories (net : Settled) : M World unit :=
  try_catch
    (response <- fetch {| req_method := GET;
                          req_url := apiBase ++ lit "/stories";
                          req_body := NoBody |} net ;;
     data <- json response ;;
     cond <- (if truthy data then lift (get_prop data (lit "stories"))
              else ret data) ;;
     if truthy cond
     then (stories <- lift (get_prop data (lit "stories")) ;;
           populateStoriesList stories)
     else (console_error
             (lit "Failed to load stories: Invalid response format") None ;;
           showError load_stories_failed))
    (fun error =>
       console_error (lit "Error loading stories:") (Some error) ;;
       showError load_stories_failed).

(** *** The story logic panel (lines 319-362) *)

Definition type_is (kind : jsstring) (el : JsValue) : M World bool :=
  t <- lift (get_prop el (lit "type")) ;;
  ret (strict_eq_str t kind).

(** [li.textContent = el.name + ' (' + el.description + ')'], appended to
    the characters list. *)
Definition add_character (el : JsValue) : M World unit :=
  name <- lift (get_prop el (lit "name")) ;;
  description <- lift (get_prop el (lit "description")) ;;
  modify (fun w =>
            set_characters_list
              (option_map
                 (fun lis =>
                    lis ++ [to_string name ++ lit " ("
                              ++ to_string description ++ lit ")"])
                 (characters_list w)) w).

(** [li.textContent = el.name], appended to the locations list. *)
Definition add_location (el : JsValue) : M World unit :=
  name <- lift (get_prop el (lit "name")) ;;
  modify (fun w =>
            set_locations_list
              (option_map (fun lis => lis ++ [to_text_content name])
                 (locations_list w)) w).

(** [if (charactersList && storyData.elements) { ... }] *)
Definition show_characters (storyData : JsValue) : M World unit :=
  w <- get ;;
  match characters_list w with
  | None => ret tt
  | Some _ =>
      elements <- lift (get_prop storyData (lit "elements")) ;;
      when (truthy elements)
        (modify (set_characters_list (Some [])) ;;
         chosen <- js_filter elements (type_is (lit "character")) ;;
         forEach add_character chosen)
  end.

(** [if (locationsList && storyData.elements) { ... }] *)
Definition show_locations (storyData : JsValue) : M World unit :=
  w <- get ;;
  match locations_list w with
  | None => ret tt
  | Some _ =>
      elements <- lift (get_prop storyData (lit "elements")) ;;
      when (truthy elements)
        (modify (set_locations_list (Some [])) ;;
         chosen <- js_filter elements (type_is (lit "location")) ;;
         forEach add_location chosen)
  end.

(** [if (rulesList) { ... }] *)
Definition show_rules : M World unit :=
  modify (fun w =>
            set_rules_list
              (option_map
                 (fun _ => [lit "Story consistency rules will be shown here"])
                 (rules_list w)) w).

Definition updateStoryLogicPanel (storyData : JsValue) : M World unit :=
  show_characters storyData ;;
  show_locations storyData ;;
  show_rules.

Definition loadStoryLogic (storyId : jsstring) (net : Settled)
  : M World unit :=
  try_catch
    (response <- fetch {| req_method := GET;
                          req_url := apiBase ++ lit "/stories/" ++ storyId;
                          req_body := NoBody |} net ;;
     data <- json response ;;
     success <- lift (get_prop data (lit "success")) ;;
     if truthy success
     then (storyData <- lift (get_prop data (lit "data")) ;;
           updateStoryLogicPanel storyData)
     else ret tt)
    (fun error =>
       console_error (lit "Error loading story logic:") (Some error)).

(** *** Expansion proposals (lines 490-546) *)

Definition openExpansionModal : M World unit :=
  w <- get ;;
  match currentStory w with
  | None => showError (lit "Please select a story first.")
  | Some _ =>
      match expansion_modal w with
      | None => ret tt
      | Some _ =>
          modify (set_expansion_modal (Some (lit "block"))) ;;
          _ <- deref (expansion_page w) ;;
          modify (set_expansion_page (Some (lit "1")))
      end
  end.

Definition closeExpansionModal : M World unit :=
  modify (fun w =>
            set_expansion_modal
              (option_map (fun _ => lit "none") (expansion_modal w)) w).

Definition submitExpansion (net : Settled) : M World unit :=
  w <- get ;;
  text_value <- deref (expansion_text w) ;;
  let expansionText := trim text_value in
  page_value <- deref (expansion_page w) ;;
  let pageNumber := parseInt page_value in
  match expansionText with
  | [] => showError (lit "Please enter your expansion idea.")
  | _ =>
      try_catch
        (story <- deref (currentStory w) ;;
         response <- fetch {| req_method := POST;
                              req_url := apiBase ++ lit "/propose-expansion";
                              req_body :=
                                ExpansionBody (story_id story) expansionText
                                  pageNumber [] |} net ;;
         data <- json response ;;
         success <- lift (get_prop data (lit "success")) ;;
         if truthy success
         then (addMessage (JStr (lit "Expansion proposal submitted successfully!"))
                 (JStr (lit "bot")) ;;
               closeExpansionModal ;;
               w' <- get ;;
               _ <- deref (expansion_text w') ;;
               modify (set_expansion_text (Some [])))
         else showError (lit "Failed to submit expansion. Please try again."))
        (fun error =>
           console_error (lit "Error submitting expansion:") (Some error) ;;
           showError
             (lit "Failed to submit expansion. Please check your connection."))
  end.

(** *** Start and timers *)

(** What a timer runs when it fires; the controller itself never asks for
    a reload. *)
Definition run_timer (t : Task) (net : Settled) : M World unit :=
  match t with
  | RunLoadMessages => loadMessages net
  | RemoveErrorDiv errorDiv => removeErrorDiv errorDiv
  | ReloadPage => ret tt
  end.

(** [init] (lines 187-191): the catalogue is requested and the welcome
    message added.  The two touch different parts of the state, so the
    order in which the response and the welcome message arrive does not
    show. *)
Definition init (net : Settled) : M World unit :=
  loadStories net ;;
  addWelcomeMessage.

Definition task_eqb (a b : Task) : bool :=
  match a, b with
  | RunLoadMessages, RunLoadMessages => true
  | RemoveErrorDiv m, RemoveErrorDiv n => Nat.eqb m n
  | ReloadPage, ReloadPage => true
  | _, _ => false
  end.

(** The pending timers without the first one that runs [t]; [None] when no
    timer runs it. *)
Fixpoint take_timer (t : Task) (ts : list Timer) : option (list Timer) :=
  match ts with
  | [] => None
  | (delay, t') :: rest =>
      if task_eqb t t' then Some rest
      else option_map (cons (delay, t')) (take_timer t rest)
  end.

(** A pending timer for [t] fires; nothing happens when none is pending. *)
Definition fire (t : Task) (net : Settled) : M World unit :=
  w <- get ;;
  match take_timer t (timers w) with
  | None => ret tt
  | Some rest => modify (set_timers rest) ;; run_timer t net
  end.

(** One send-then-resync cycle: [sendMessage], then the timer it set runs
    [loadMessages]. *)
Definition send_then_resync (post get_ : Settled) : M World unit :=
  sendMessage post ;;
  fire RunLoadMessages get_.

(** The rendered transcript: the children of the container. *)
Definition transcript (w : World) : list Node :=
  match chat_messages w with
  | Some nodes => nodes
  | None => []
  end.

(** What [loadMessages] keeps of the transcript it replaces. *)
Definition retained (nodes : list Node) : list Node :=
  match querySelector_message_bot nodes with
  | Some el => [el]
  | None => []
  end.

(** The value of a property the element is known to have or lack without
    an exception. *)
Definition field (v : JsValue) (key : jsstring) : JsValue :=
  match get_prop v key with
  | inr x => x
  | inl _ => JUndefined
  end.

(** The element [loadMessages] renders for one fetched message. *)
Definition rendered (msg : JsValue) : Node :=
  messageDiv (field msg (lit "content")) (field msg (lit "sender")).

(** The entry [loadMessages] pushes for one fetched message. *)
Definition remembered (now : N) (msg : JsValue) : Message :=
  {| msg_text := field msg (lit "content");
     msg_sender := field msg (lit "sender");
     msg_timestamp := now |}.

(** [el.type === kind] *)
Definition has_type (kind : jsstring) (el : JsValue) : bool :=
  strict_eq_str (field el (lit "type")) kind.

(** The text of the entry a character gets. *)
Definition character_li (el : JsValue) : jsstring :=
  to_string (field el (lit "name")) ++ lit " ("
    ++ to_string (field el (lit "description")) ++ lit ")".

(** The text of the entry a location gets. *)
Definition location_li (el : JsValue) : jsstring :=
  to_text_content (field el (lit "name")).

(** An element of the story logic as the backend describes it, and its
    JSON. *)
Record Element := {
  el_type : jsstring;
  el_name : jsstring;
  el_description : jsstring
}.

Definition element_json (e : Element) : JsValue :=
  JObj [(lit "type", JStr (el_type e)); (lit "name", JStr (el_name e));
        (lit "description", JStr (el_description e))].

(** A value a property can be read from: anything but [null] and
    [undefined]. *)
Definition readable (v : JsValue) : bool :=
  match v with
  | JUndefined | JNull => false
  | _ => true
  end.

Definition Node_eq_dec : forall a b : Node, {a = b} + {a <> b}.
Proof. decide equality; apply jsstring_eq_dec. Defined.

Definition is_message_node (n : Node) : bool :=
  match n with
  | MessageDiv _ _ _ _ => true
  | SystemDiv _ => false
  end.

(** The element a remembered message was rendered as. *)
Definition node_of (m : Message) : Node :=
  messageDiv (msg_text m) (msg_sender m).

(** The in-memory list mirrors the transcript: apart from system notices,
    which are on the page only, the same entries in the same order. *)
Definition mirrored (w : World) : Prop :=
  filter is_message_node (transcript w) = map node_of (messages w).

(** A page with every element the controller looks up, all empty, before
    the controller starts. *)
Definition fresh_page : World :=
  {| currentStory := None; messages := [];
     chat_messages := Some []; message_input := Some [];
     send_btn := Some {| disabled := false; innerHTML := lit "Send" |};
     stories_list := Some []; characters_list := Some [];
     locations_list := Some []; rules_list := Some [];
     expansion_modal := Some (lit "none"); expansion_text := Some [];
     expansion_page := Some (lit "1");
     error_divs := []; next_node := 0; requests := []; timers := [];
     console := []; clock := 0 |}.

(** A response with status 200 and the given JSON body. *)
Definition ok_response (v : JsValue) : Response :=
  {| status := 200; statusText := lit "OK"; body := Json v |}.

Definition ok_json (v : JsValue) : Settled := Fulfilled (ok_response v).

(** The entry [populateStoriesList] builds for one story. *)
Definition story_item (story : JsValue) : StoryItem :=
  {| item_className := lit "story-item";
     item_data_id := to_string (field story (lit "id"));
     icon_className := lit "fas fa-book";
     span_textContent := to_text_content (field story (lit "title")) |}.

Definition is_array (v : JsValue) : bool :=
  match v with
  | JArr _ => true
  | _ => false
  end.

(** *** A session, for the examples *)

Definition the_fox : Story :=
  {| story_id := lit "s1"; story_title := lit "The Fox" |}.

Definition the_fox_json : JsValue :=
  JObj [(lit "id", JStr (lit "s1")); (lit "title", JStr (lit "The Fox"))].

Definition catalogue : JsValue := JObj [(lit "stories", JArr [the_fox_json])].

(** The page once the controller has started and the catalogue has
    arrived. *)
Definition started : World := final (init (ok_json catalogue) fresh_page).

(** The user has picked the story and typed a message: the controller
    holds the story and the notice is in the transcript, as lines 303 and
    315 of [selectStory] leave them. *)
Definition chatting : World :=
  set_message_input (Some (lit "hi"))
    (final (addSystemMessage (lit "Selected story: The Fox")
              (set_currentStory (Some the_fox) started))).

Definition server_message (content sender : string) : JsValue :=
  JObj [(lit "content", JStr (lit content)); (lit "sender", JStr (lit sender))].

(** What the backend holds after the message: the message and a reply. *)
Definition server_transcript : JsValue :=
  JArr [server_message "hi" "user"; server_message "Hello there" "bot"].

(** A page whose markup already lists a story when the controller
    starts. *)
Definition page_with_story : World :=
  set_stories_list (Some [story_item the_fox_json]) fresh_page.

(** No story picked yet; the input holds blanks only. *)
Definition typing_blanks : World :=
  set_message_input (Some (lit "   ")) started.

(** No story picked yet; the input holds a message. *)
Definition typing_early : World :=
  set_message_input (Some (lit "hi")) started.

(** No story picked yet; the expansion form is filled in. *)
Definition proposing_early : World :=
  set_expansion_text (Some (lit "add a dragon"))
    (set_expansion_page (Some (lit "3")) started).

Definition fox_elements : list Element :=
  [{| el_type := lit "character"; el_name := lit "Fox";
      el_description := lit "a sly fox" |};
   {| el_type := lit "location"; el_name := lit "Forest";
      el_description := lit "dark and old" |};
   {| el_type := lit "rule"; el_name := lit "No magic";
      el_description := lit "animals talk, nothing else" |};
   {| el_type := lit "character"; el_name := lit "Hen";
      el_description := lit "wary" |}].

Definition fox_logic_data : JsValue :=
  JObj [(lit "elements", JArr (map element_json fox_elements))].

Definition fox_logic : JsValue :=
  JObj [(lit "success", JBool true); (lit "data", fox_logic_data)].

(** A catalogue response whose [stories] is not a list. *)
Definition stories_not_a_list : JsValue := JObj [(lit "stories", JBool true)].

(** A catalogue response whose second story is [null]. *)
Definition stories_with_null : JsValue :=
  JObj [(lit "stories", JArr [the_fox_json; JNull])].

(** *** Escaping (lines 602-606 and 615-619) *)

(** How [innerHTML] writes one code unit of a text node: the ampersand,
    the no-break space and the angle brackets become entities. *)
Definition escape_unit (c : N) : jsstring :=
  if N.eqb c 38 then lit "&amp;"
  else if N.eqb c 160 then lit "&nbsp;"
  else if N.eqb c 60 then lit "&lt;"
  else if N.eqb c 62 then lit "&gt;"
  else [c].

Definition escape_text (s : jsstring) : jsstring := flat_map escape_unit s.

(** [div.textContent = text; return div.innerHTML] *)
Definition escapeHtml (text : JsValue) : jsstring :=
  escape_text (to_text_content text).

Definition sanitizeInput (input : JsValue) : jsstring :=
  escape_text (to_text_content input).

(** *** The constructor (lines 180-185) *)

Definition new_StoryWeaverApp (net : Settled) : M World unit :=
  modify (set_currentStory None) ;;
  modify (set_messages []) ;;
  init net.

(** *** The controller under a sequence of events *)

(** What can happen to the controller, apart from the resync: the user
    types, clicks, a notification's timer fires; and the three steps of
    [selectStory] that touch this state, each on its own (the story is held,
    line 303; the notice is added, line 315; the story logic is loaded,
    line 316). *)
Inductive Action :=
| Typed (value : jsstring)
| SendClicked (net : Settled)
| ClearClicked
| ProposeClicked
| ProposalTyped (text page : jsstring)
| SubmitClicked (net : Settled)
| CancelClicked
| ErrorTimerFired (errorDiv : nat)
| StoryHeld (story : Story)
| NoticeAdded (text : jsstring)
| LogicLoaded (storyId : jsstring) (net : Settled).

Definition act (a : Action) : M World unit :=
  match a with
  | Typed value =>
      modify (fun w =>
                set_message_input
                  (option_map (fun _ => value) (message_input w)) w)
  | SendClicked net => sendMessage net
  | ClearClicked => clearChat
  | ProposeClicked => openExpansionModal
  | ProposalTyped text page =>
      modify (fun w =>
                set_expansion_text
                  (option_map (fun _ => text) (expansion_text w)) w) ;;
      modify (fun w =>
                set_expansion_page
                  (option_map (fun _ => page) (expansion_page w)) w)
  | SubmitClicked net => submitExpansion net
  | CancelClicked => closeExpansionModal
  | ErrorTimerFired errorDiv => removeErrorDiv errorDiv
  | StoryHeld story => modify (set_currentStory (Some story))
  | NoticeAdded text => addSystemMessage text
  | LogicLoaded storyId net => loadStoryLogic storyId net
  end.

(** The actions are handled one after the other; an exception that leaves
    a handler ends that handler only. *)
Fixpoint dispatch (actions : list Action) (w : World) : World :=
  match actions with
  | [] => w
  | a :: rest => dispatch rest (final (act a w))
  end.

(** Every notification on the page was created before the next one will
    be, so the next one is unlike them all. *)
Definition fresh_ids (w : World) : Prop :=
  Forall (fun d => fst d < next_node w) (error_divs w).

(** The send button as [hideLoading] leaves it. *)
Definition send_ready : Button :=
  {| disabled := false;
     innerHTML := lit "<i class=" ++ dquote ++ lit "fas fa-paper-plane"
                    ++ dquote ++ lit "></i> Send" |}.

Definition message_request (story : Story) (content : jsstring) : Request :=
  {| req_method := POST; req_url := messages_url story;
     req_body := MessageBody content (lit "user") |}.

Definition welcome_node : Node :=
  messageDiv (JStr welcome_text) (JStr (lit "bot")).

(** A story of the catalogue as the backend describes it, and the entry
    the list shows for it. *)
Definition story_json (s : Story) : JsValue :=
  JObj [(lit "id", JStr (story_id s)); (lit "title", JStr (story_title s))].

Definition item_of_story (s : Story) : StoryItem :=
  {| item_className := lit "story-item";
     item_data_id := story_id s;
     icon_className := lit "fas fa-book";
     span_textContent := story_title s |}.

(** The element and the entry that confirm an expansion proposal. *)
Definition confirmation_text : jsstring :=
  lit "Expansion proposal submitted successfully!".

(** A response with the given status and JSON body. *)
Definition json_response (code : N) (text : string) (v : JsValue)
  : Response :=
  {| status := code; statusText := lit text; body := Json v |}.

(** The story is picked, the expansion dialog is open and filled in. *)
Definition proposing : World :=
  set_expansion_text (Some (lit "  add a dragon "))
    (set_expansion_page (Some (lit "3"))
       (final (openExpansionModal chatting))).

(** A page without the welcome message: the transcript holds a notice
    only. *)
Definition no_welcome : World :=
  set_chat_messages (Some [SystemDiv (lit "Selected story: The Fox")])
    chatting.

Definition stories_request : Request :=
  {| req_method := GET; req_url := apiBase ++ lit "/stories";
     req_body := NoBody |}.

Definition story_logic_request (storyId : jsstring) : Request :=
  {| req_method := GET; req_url := apiBase ++ lit "/stories/" ++ storyId;
     req_body := NoBody |}.

Definition messages_request (story : Story) : Request :=
  {| req_method := GET; req_url := messages_url story; req_body := NoBody |}.

Definition expansion_request (story : Story) (text page : jsstring)
  : Request :=
  {| req_method := POST; req_url := apiBase ++ lit "/propose-expansion";
     req_body := ExpansionBody (story_id story) (trim text) (parseInt page) [] |}.

(** The catalogue did not arrive: the request was rejected, the body is
    not JSON, or [data] or [data.stories] is falsy. *)
Definition no_catalogue (net : Settled) : bool :=
  match net with
  | Rejected _ => true
  | Fulfilled r =>
      match body r with
      | ParseFailure _ => true
      | Json data =>
          (negb (truthy data) || negb (truthy (field data (lit "stories"))))%bool
      end
  end.

(** The request never reached the server. *)
Definition offline : Settled := Rejected (lit "Failed to fetch").

(** The expansion dialog with blanks for a text. *)
Definition proposing_blank : World :=
  set_expansion_text (Some (lit "   ")) proposing.

(** The page after a send that was stopped for want of a story: its
    notification is still shown. *)
Definition notified : World := final (sendMessage offline typing_early).

End App.
Import App.

(* ===================================================================== *)
(** ** Properties *)
(* ===================================================================== *)

Ltac run :=
  unfold bind, ret, get, gets, modify, throw, try_catch, try_finally, lift,
    deref, when; simpl.

Lemma str_eqb_eq (a b : jsstring) : str_eqb a b = true <-> a = b.
Proof.
  revert b; induction a as [|x a IH]; destruct b as [|y b]; simpl;
    try (split; congruence).
  rewrite andb_true_iff, N.eqb_eq, IH. split.
  - intros [-> ->]; reflexivity.
  - intros H; injection H; auto.
Qed.

Section SendMessage.

Variable w : World.
Variable x : jsstring.
Variable net : Settled.
Hypothesis Hinput : message_input w = Some x.

(** C4. With an input that is empty, or empty once trimmed, [sendMessage]
    returns at once and changes nothing: the transcript keeps its length,
    no request goes out and no error notification appears. *)
Theorem sendMessage_blank_noop :
  trim x = [] ->
  sendMessage net w = Ok tt w /\
  List.length (transcript (final (sendMessage net w))) =
    List.length (transcript w) /\
  requests (final (sendMessage net w)) = requests w /\
  error_divs (final (sendMessage net w)) = error_divs w.
Proof.
  intros Hblank.
  assert (E : sendMessage net w = Ok tt w).
  { unfold sendMessage; run. rewrite Hinput; simpl. now rewrite Hblank. }
  rewrite E; simpl; auto.
Qed.

(** C3, amended. With no story selected and an input that is not empty
    once trimmed, [sendMessage] returns having shown exactly one error
    notification; the transcript and the in-memory list are as before and
    no request went out. *)
Theorem sendMessage_no_story_reports_once :
  trim x <> [] ->
  currentStory w = None ->
  let w' := final (sendMessage net w) in
  returned (sendMessage net w) = true /\
  error_divs w' =
    error_divs w ++ [(next_node w, lit "Please select a story first.")] /\
  chat_messages w' = chat_messages w /\
  messages w' = messages w /\
  requests w' = requests w.
Proof.
  intros Hfull Hnone.
  unfold sendMessage; run. rewrite Hinput; simpl.
  destruct (trim x) as [|c rest] eqn:E; [congruence|].
  rewrite Hnone. unfold showError, setTimeout; run. auto.
Qed.

End SendMessage.

Section ClearChat.

Variable w : World.
Hypothesis Hcontainer : chat_messages w <> None.

Lemma clearChat_run :
  clearChat w =
    Ok tt
      (set_messages
         [{| msg_text := JStr welcome_text; msg_sender := JStr (lit "bot");
             msg_timestamp := clock w |}]
         (set_chat_messages
            (Some [messageDiv (JStr welcome_text) (JStr (lit "bot"))])
            (set_messages [] (set_chat_messages (Some []) w)))).
Proof.
  unfold clearChat, addWelcomeMessage, addMessage; run.
  destruct (chat_messages w) as [nodes|] eqn:E; [|congruence].
  reflexivity.
Qed.

(** C7. Whatever the state, once the transcript container is on the page
    [clearChat] leaves in it exactly one message, the welcome message with
    sender [bot], and the in-memory list holds exactly that message. *)
Theorem clearChat_leaves_welcome :
  let w' := final (clearChat w) in
  returned (clearChat w) = true /\
  chat_messages w' =
    Some [messageDiv (JStr welcome_text) (JStr (lit "bot"))] /\
  messages w' =
    [{| msg_text := JStr welcome_text; msg_sender := JStr (lit "bot");
        msg_timestamp := clock w |}] /\
  node_className (messageDiv (JStr welcome_text) (JStr (lit "bot"))) =
    lit "message bot".
Proof.
  rewrite clearChat_run. simpl. repeat split; reflexivity.
Qed.

(** After [clearChat] the in-memory list mirrors the transcript. *)
Lemma clearChat_mirrored : mirrored (final (clearChat w)).
Proof.
  rewrite clearChat_run. reflexivity.
Qed.

End ClearChat.

Section Upload.

Import UploadFlow.

Lemma cancelUpload_idempotent (d : Dialog) :
  final (cancelUpload (final (cancelUpload d))) = final (cancelUpload d).
Proof.
  unfold cancelUpload; run.
  destruct d as [modal input label confirm cancel progress bar status rq tm cs].
  simpl. destruct cancel; simpl; [|reflexivity].
  destruct modal, input, label, confirm, progress, bar, status; reflexivity.
Qed.

(** C9. From every state of the dialog, [cancelUpload] clears the file
    input, puts the sentinel in the file name label, hides the progress
    display and sets the bar to 0%, gives the status line its default
    colour, disables confirm and hides the modal; a second call changes
    nothing more. *)
Theorem cancelUpload_resets_and_is_idempotent (d : Dialog) :
  complete d = true ->
  let d' := final (cancelUpload d) in
  returned (cancelUpload d) = true /\
  pdfFileInput d' = Some None /\
  selectedFileName d' = Some (lit "No file selected") /\
  uploadProgress d' = Some (lit "none") /\
  progressBar d' = Some (lit "0%") /\
  option_map color (uploadStatus d') = Some [] /\
  confirmUploadBtn d' = Some true /\
  pdfUploadModal d' = Some (lit "none") /\
  final (cancelUpload d') = d'.
Proof.
  intros Hall d'.
  assert (Hidem : final (cancelUpload d') = d')
    by apply cancelUpload_idempotent.
  revert Hidem. subst d'. generalize (final (cancelUpload (final (cancelUpload d)))).
  unfold cancelUpload; run.
  destruct d as [modal input label confirm cancel progress bar status rq tm cs].
  unfold complete in Hall; simpl in *.
  destruct modal, input, label, confirm, cancel, progress, bar, status;
    simpl in *; try discriminate.
  intros; repeat split; auto.
Qed.

(** C8. When the upload request settles with a status outside 200-299,
    whatever the status, the status line reads [Error: Upload failed: ]
    followed by the response's status text, confirm and cancel are enabled
    again, and the modal is as it was, so an open modal stays open. *)
Theorem confirmUpload_non_ok_reports (d : Dialog) (file : File)
  (r : Response) :
  complete d = true ->
  pdfFileInput d = Some (Some file) ->
  ok r = false ->
  let d' := final (confirmUpload (Fulfilled r) d) in
  returned (confirmUpload (Fulfilled r) d) = true /\
  uploadStatus d' =
    Some {| textContent := lit "Error: Upload failed: " ++ statusText r;
            color := lit "red" |} /\
  confirmUploadBtn d' = Some false /\
  cancelUploadBtn d' = Some false /\
  pdfUploadModal d' = pdfUploadModal d /\
  timers d' = timers d.
Proof.
  intros Hall Hfile Hbad.
  unfold confirmUpload; run.
  destruct d as [modal input label confirm cancel progress bar status rq tm cs].
  unfold complete in Hall; simpl in *. subst input.
  destruct modal, label, confirm, cancel, progress, bar, status;
    simpl in *; try discriminate.
  unfold fetch, fetch_with; run. rewrite Hbad. simpl.
  repeat split; reflexivity.
Qed.

End Upload.

Section SubmitExpansion.

Variable w : World.
Variables x p : jsstring.
Variable net : Settled.
Hypothesis Htext : expansion_text w = Some x.
Hypothesis Hpage : expansion_page w = Some p.

(** C10. [submitExpansion] has no guard on the selected story.  With no
    story selected and a text that is not empty once trimmed, reading
    [this.currentStory.id] throws inside the [try]; the handler catches
    it, so the call returns, having shown the one connection-error
    notification; no request went out, and the modal and the text field
    are as they were. *)
Theorem submitExpansion_no_story_is_caught :
  currentStory w = None ->
  trim x <> [] ->
  let w' := final (submitExpansion net w) in
  returned (submitExpansion net w) = true /\
  error_divs w' =
    error_divs w ++
      [(next_node w,
        lit "Failed to submit expansion. Please check your connection.")] /\
  requests w' = requests w /\
  expansion_modal w' = expansion_modal w /\
  expansion_text w' = expansion_text w /\
  chat_messages w' = chat_messages w.
Proof.
  intros Hnone Hfull.
  unfold submitExpansion; run. rewrite Htext; simpl. rewrite Hpage; simpl.
  destruct (trim x) as [|c rest] eqn:E; [congruence|].
  rewrite Hnone; simpl.
  unfold console_error, showError, setTimeout; run.
  repeat split; solve [reflexivity | congruence].
Qed.

End SubmitExpansion.

Lemma get_prop_readable (v : JsValue) (key : jsstring) :
  readable v = true -> get_prop v key = inr (field v key).
Proof.
  unfold field. destruct v; simpl; try discriminate; try reflexivity.
  now destruct (lookup key fields).
Qed.

(** Rendering the fetched messages one after the other appends their
    elements to the transcript and their entries to the in-memory list. *)
Lemma forEach_add_fetched (js : list JsValue) :
  forallb readable js = true ->
  forall (w : World) (nodes : list Node),
    chat_messages w = Some nodes ->
    exists w',
      forEach add_fetched js w = Ok tt w' /\
      chat_messages w' = Some (nodes ++ map rendered js) /\
      messages w' = messages w ++ map (remembered (clock w)) js /\
      currentStory w' = currentStory w /\
      clock w' = clock w /\
      error_divs w' = error_divs w /\
      requests w' = requests w.
Proof.
  induction js as [|msg js IH]; intros Hjs w nodes Hnodes.
  - exists w. simpl. rewrite !app_nil_r. auto 10.
  - simpl in Hjs. apply andb_true_iff in Hjs as [Hmsg Hjs].
    set (w1 := set_messages
                 (messages w ++ [remembered (clock w) msg])
                 (set_chat_messages (Some (nodes ++ [rendered msg])) w)).
    assert (Hstep : add_fetched msg w = Ok tt w1).
    { unfold add_fetched, addMessage; run.
      rewrite !(get_prop_readable _ _ Hmsg); simpl. rewrite Hnodes.
      reflexivity. }
    destruct (IH Hjs w1 (nodes ++ [rendered msg]) eq_refl)
      as (w' & Hrun & Hc & Hm & Hs & Hk & He & Hr).
    exists w'. simpl. unfold bind at 1. rewrite Hstep, Hrun.
    split; [reflexivity|].
    rewrite Hc, Hm, Hs, Hk, He, Hr. simpl.
    rewrite <- !app_assoc. simpl. auto 10.
Qed.

Section LoadMessages.

Variable w : World.
Variable story : Story.
Variable nodes : list Node.
Variable r : Response.
Variable js : list JsValue.
Hypothesis Hstory : currentStory w = Some story.
Hypothesis Hnodes : chat_messages w = Some nodes.
Hypothesis Hbody : body r = Json (JArr js).
Hypothesis Hjs : forallb readable js = true.

(** A resync that goes through replaces the transcript by the retained
    element and the fetched messages, and appends the fetched messages to
    the in-memory list, which it does not empty first. *)
Lemma loadMessages_run :
  exists w',
    loadMessages (Fulfilled r) w = Ok tt w' /\
    chat_messages w' = Some (retained nodes ++ map rendered js) /\
    messages w' = messages w ++ map (remembered (clock w)) js /\
    error_divs w' = error_divs w.
Proof.
  unfold loadMessages; run. rewrite Hstory.
  unfold fetch, fetch_with, json; run. rewrite Hbody. simpl.
  rewrite Hnodes. simpl. unfold retained.
  destruct (querySelector_message_bot nodes) as [el|]; simpl.
  - match goal with
    | |- context [forEach add_fetched js ?w0] =>
        destruct (@forEach_add_fetched js Hjs w0 [el] eq_refl)
          as (w' & Hrun & Hc & Hm & _ & _ & He & _)
    end.
    exists w'. rewrite Hrun. simpl in *. auto.
  - match goal with
    | |- context [forEach add_fetched js ?w0] =>
        destruct (@forEach_add_fetched js Hjs w0 [] eq_refl)
          as (w' & Hrun & Hc & Hm & _ & _ & He & _)
    end.
    exists w'. rewrite Hrun. simpl in *. auto.
Qed.

End LoadMessages.

Lemma task_eqb_refl (t : Task) : task_eqb t t = true.
Proof. destruct t; simpl; auto using Nat.eqb_refl. Qed.

Lemma take_timer_last (t : Task) (delay : N) (ts : list Timer) :
  exists rest, take_timer t (ts ++ [(delay, t)]) = Some rest.
Proof.
  induction ts as [|[d t'] ts [rest IH]]; simpl.
  - rewrite task_eqb_refl. eauto.
  - destruct (task_eqb t t'); [eauto|]. rewrite IH. simpl. eauto.
Qed.

(** The optimistic message is no match for [.message.bot]. *)
Lemma optimistic_not_bot (m : jsstring) :
  matches_message_bot (messageDiv (JStr m) (JStr (lit "user"))) = false.
Proof. reflexivity. Qed.

Lemma retained_app_other (nodes : list Node) (n : Node) :
  matches_message_bot n = false -> retained (nodes ++ [n]) = retained nodes.
Proof.
  intros Hn. unfold retained, querySelector_message_bot.
  induction nodes as [|a nodes IH]; simpl.
  - now rewrite Hn.
  - destruct (matches_message_bot a); [reflexivity|exact IH].
Qed.

Lemma retained_matches (nodes : list Node) (n : Node) :
  In n (retained nodes) -> matches_message_bot n = true.
Proof.
  unfold retained, querySelector_message_bot.
  destruct (find matches_message_bot nodes) as [el|] eqn:E; simpl;
    [|tauto].
  intros [<-|[]]. now apply find_some in E.
Qed.

(** A transcript that begins with the welcome message keeps it. *)
Lemma retained_welcome_first (rest : list Node) :
  retained (messageDiv (JStr welcome_text) (JStr (lit "bot")) :: rest) =
    [messageDiv (JStr welcome_text) (JStr (lit "bot"))].
Proof. reflexivity. Qed.

(** With at most one [.message.bot] element on the page, what is retained
    is all of them. *)
Lemma retained_at_most_one (nodes : list Node) :
  List.length (filter matches_message_bot nodes) <= 1 ->
  retained nodes = filter matches_message_bot nodes.
Proof.
  unfold retained, querySelector_message_bot.
  induction nodes as [|a nodes IH]; simpl; [reflexivity|].
  destruct (matches_message_bot a) eqn:E; simpl; [|exact IH].
  intros H. destruct (filter matches_message_bot nodes); [reflexivity|].
  simpl in H; lia.
Qed.

Lemma count_occ_retained_other (nodes : list Node) (n : Node) :
  matches_message_bot n = false ->
  count_occ Node_eq_dec (retained nodes) n = 0.
Proof.
  intros Hn. apply count_occ_not_In. intros Hin.
  apply retained_matches in Hin. congruence.
Qed.

Section SendCycle.

Variable w : World.
Variable x : jsstring.
Variable story : Story.
Variable nodes : list Node.
Variable post : Response.
Variable v : JsValue.
Hypothesis Hinput : message_input w = Some x.
Hypothesis Hfull : trim x <> [].
Hypothesis Hstory : currentStory w = Some story.
Hypothesis Hnodes : chat_messages w = Some nodes.
Hypothesis Hok : ok post = true.
Hypothesis Hjson : body post = Json v.

(** A send that goes through: the optimistic message is on the page and
    in the list, the request is out, and the resync is on a timer. *)
Lemma sendMessage_run :
  exists w1,
    sendMessage (Fulfilled post) w = Ok tt w1 /\
    chat_messages w1 =
      Some (nodes ++ [messageDiv (JStr (trim x)) (JStr (lit "user"))]) /\
    currentStory w1 = Some story /\
    timers w1 = timers w ++ [(500%N, RunLoadMessages)] /\
    messages w1 =
      messages w ++ [{| msg_text := JStr (trim x);
                        msg_sender := JStr (lit "user");
                        msg_timestamp := clock w |}] /\
    clock w1 = clock w /\
    error_divs w1 = error_divs w /\
    requests w1 =
      requests w ++ [{| req_method := POST; req_url := messages_url story;
                        req_body := MessageBody (trim x) (lit "user") |}].
Proof.
  unfold sendMessage; run. rewrite Hinput; simpl.
  destruct (trim x) as [|c rest] eqn:E; [congruence|].
  rewrite Hstory. unfold addMessage; run. rewrite Hnodes. simpl.
  unfold fetch, fetch_with, json; run. rewrite Hjson, Hok. simpl.
  eexists. split; [reflexivity|]. simpl. auto 10.
Qed.

Variable get_r : Response.
Variable js : list JsValue.
Hypothesis Hbody : body get_r = Json (JArr js).
Hypothesis Hjs : forallb readable js = true.

(** C1. After a send that goes through and the resync it set, the
    transcript is what was retained of the transcript before the send,
    that is its first [.message.bot] element if it had one, followed by
    the elements of the fetched messages in the order of the response.
    When the earlier transcript had at most one bot message, the welcome
    message, what is retained is that message if it was there.  The
    optimistic message is in the result only as often as the response
    brings it. *)
Theorem send_then_resync_transcript :
  let cycle := send_then_resync (Fulfilled post) (Fulfilled get_r) w in
  let optimistic := messageDiv (JStr (trim x)) (JStr (lit "user")) in
  returned cycle = true /\
  chat_messages (final cycle) = Some (retained nodes ++ map rendered js) /\
  (List.length (filter matches_message_bot nodes) <= 1 ->
   chat_messages (final cycle) =
     Some (filter matches_message_bot nodes ++ map rendered js)) /\
  count_occ Node_eq_dec (transcript (final cycle)) optimistic =
    count_occ Node_eq_dec (map rendered js) optimistic.
Proof.
  destruct sendMessage_run as (w1 & Hsend & Hc1 & Hs1 & Ht1 & _).
  destruct (take_timer_last RunLoadMessages 500 (timers w)) as [rest Hrest].
  assert (Hload := @loadMessages_run (set_timers rest w1) story _ get_r js
                     Hs1 Hc1 Hbody Hjs).
  destruct Hload as (w2 & Hload & Hc2 & _).
  assert (Hcycle : send_then_resync (Fulfilled post) (Fulfilled get_r) w
                   = Ok tt w2).
  { unfold send_then_resync, fire. unfold bind at 1. rewrite Hsend.
    run. rewrite Ht1, Hrest. exact Hload. }
  rewrite Hcycle. simpl.
  rewrite retained_app_other in Hc2 by apply optimistic_not_bot.
  split; [reflexivity|]. split; [exact Hc2|].
  split; [intros Hone; now rewrite <- retained_at_most_one|].
  unfold transcript. rewrite Hc2, count_occ_app.
  rewrite count_occ_retained_other by apply optimistic_not_bot.
  reflexivity.
Qed.

End SendCycle.

Lemma forallb_filter {A} (p q : A -> bool) (xs : list A) :
  forallb p xs = true -> forallb p (filter q xs) = true.
Proof.
  induction xs as [|a xs IH]; simpl; [reflexivity|].
  intros H; apply andb_true_iff in H as [Ha Hxs].
  destruct (q a); simpl; [rewrite Ha|]; auto.
Qed.

(** [elements.filter(el => el.type === kind)] keeps the elements of that
    type, in order, and touches nothing. *)
Lemma filterM_type_is (kind : jsstring) (js : list JsValue) :
  forallb readable js = true ->
  forall w, filterM (type_is kind) js w = Ok (filter (has_type kind) js) w.
Proof.
  induction js as [|el js IH]; intros Hjs w; [reflexivity|].
  simpl in Hjs. apply andb_true_iff in Hjs as [Hel Hjs].
  simpl. unfold bind at 1. unfold type_is at 1. run.
  rewrite (get_prop_readable _ _ Hel). simpl.
  rewrite (IH Hjs). reflexivity.
Qed.

Lemma forEach_add_character (chosen : list JsValue) :
  forallb readable chosen = true ->
  forall (w : World) (lis : list jsstring),
    characters_list w = Some lis ->
    exists w',
      forEach add_character chosen w = Ok tt w' /\
      characters_list w' = Some (lis ++ map character_li chosen) /\
      locations_list w' = locations_list w.
Proof.
  induction chosen as [|el chosen IH]; intros Hall w lis Hlis.
  - exists w. simpl. rewrite app_nil_r. auto.
  - simpl in Hall. apply andb_true_iff in Hall as [Hel Hall].
    set (w1 := set_characters_list (Some (lis ++ [character_li el])) w).
    assert (Hstep : add_character el w = Ok tt w1).
    { unfold add_character; run. rewrite !(get_prop_readable _ _ Hel).
      simpl. rewrite Hlis. reflexivity. }
    destruct (IH Hall w1 _ eq_refl) as (w' & Hrun & Hc & Hl).
    exists w'. simpl. unfold bind at 1. rewrite Hstep, Hrun, Hc, Hl.
    rewrite <- app_assoc. auto.
Qed.

Lemma forEach_add_location (chosen : list JsValue) :
  forallb readable chosen = true ->
  forall (w : World) (lis : list jsstring),
    locations_list w = Some lis ->
    exists w',
      forEach add_location chosen w = Ok tt w' /\
      locations_list w' = Some (lis ++ map location_li chosen) /\
      characters_list w' = characters_list w.
Proof.
  induction chosen as [|el chosen IH]; intros Hall w lis Hlis.
  - exists w. simpl. rewrite app_nil_r. auto.
  - simpl in Hall. apply andb_true_iff in Hall as [Hel Hall].
    set (w1 := set_locations_list (Some (lis ++ [location_li el])) w).
    assert (Hstep : add_location el w = Ok tt w1).
    { unfold add_location; run. rewrite !(get_prop_readable _ _ Hel).
      simpl. rewrite Hlis. reflexivity. }
    destruct (IH Hall w1 _ eq_refl) as (w' & Hrun & Hc & Hl).
    exists w'. simpl. unfold bind at 1. rewrite Hstep, Hrun, Hc, Hl.
    rewrite <- app_assoc. auto.
Qed.

(** The panel for an array of elements, whatever was shown before. *)
Lemma updateStoryLogicPanel_run (w : World) (storyData : JsValue)
  (js : list JsValue) :
  characters_list w <> None ->
  locations_list w <> None ->
  get_prop storyData (lit "elements") = inr (JArr js) ->
  forallb readable js = true ->
  exists w',
    updateStoryLogicPanel storyData w = Ok tt w' /\
    characters_list w' =
      Some (map character_li (filter (has_type (lit "character")) js)) /\
    locations_list w' =
      Some (map location_li (filter (has_type (lit "location")) js)).
Proof.
  intros Hc Hl Hels Hjs.
  destruct (characters_list w) as [cs|] eqn:Ecs; [clear Hc|congruence].
  destruct (locations_list w) as [ls|] eqn:Els; [clear Hl|congruence].
  destruct (forEach_add_character _
              (forallb_filter _ (has_type (lit "character")) _ Hjs)
              (set_characters_list (Some []) w) [] eq_refl)
    as (w1 & Hrun1 & Hc1 & Hl1).
  simpl in Hl1. rewrite Els in Hl1.
  destruct (forEach_add_location _
              (forallb_filter _ (has_type (lit "location")) _ Hjs)
              (set_locations_list (Some []) w1) [] eq_refl)
    as (w2 & Hrun2 & Hl2 & Hc2).
  simpl in Hc2. rewrite Hc1 in Hc2.
  exists (set_rules_list
            (option_map
               (fun _ => [lit "Story consistency rules will be shown here"])
               (rules_list w2)) w2).
  split; [|simpl; auto].
  unfold updateStoryLogicPanel.
  assert (E1 : show_characters storyData w = Ok tt w1).
  { unfold show_characters; run. rewrite Ecs, Hels. simpl.
    rewrite (filterM_type_is _ _ Hjs). exact Hrun1. }
  assert (E2 : show_locations storyData w1 = Ok tt w2).
  { unfold show_locations; run. rewrite Hl1, Hels. simpl.
    rewrite (filterM_type_is _ _ Hjs). exact Hrun2. }
  unfold bind at 1. rewrite E1. unfold bind at 1. rewrite E2.
  reflexivity.
Qed.

Lemma readable_element_json (es : list Element) :
  forallb readable (map element_json es) = true.
Proof. induction es; simpl; auto. Qed.

Lemma characters_of_elements (es : list Element) :
  map character_li
    (filter (has_type (lit "character")) (map element_json es)) =
  map (fun e => el_name e ++ lit " (" ++ el_description e ++ lit ")")
    (filter (fun e => str_eqb (el_type e) (lit "character")) es).
Proof.
  induction es as [|e es IH]; simpl; [reflexivity|].
  change (has_type (lit "character") (element_json e))
    with (str_eqb (el_type e) (lit "character")).
  destruct (str_eqb (el_type e) (lit "character")); simpl;
    [f_equal|]; exact IH.
Qed.

Lemma locations_of_elements (es : list Element) :
  map location_li
    (filter (has_type (lit "location")) (map element_json es)) =
  map el_name (filter (fun e => str_eqb (el_type e) (lit "location")) es).
Proof.
  induction es as [|e es IH]; simpl; [reflexivity|].
  change (has_type (lit "location") (element_json e))
    with (str_eqb (el_type e) (lit "location")).
  destruct (str_eqb (el_type e) (lit "location")); simpl;
    [f_equal|]; exact IH.
Qed.

Section LoadStoryLogic.

Variable w : World.
Variable storyId : jsstring.
Variable r : Response.
Variables data success storyData : JsValue.
Variable es : list Element.
Hypothesis Hcharacters : characters_list w <> None.
Hypothesis Hlocations : locations_list w <> None.
Hypothesis Hbody : body r = Json data.
Hypothesis Hsuccess : get_prop data (lit "success") = inr success.
Hypothesis Htruthy : truthy success = true.
Hypothesis Hdata : get_prop data (lit "data") = inr storyData.
Hypothesis Helements :
  get_prop storyData (lit "elements") = inr (JArr (map element_json es)).

(** C6. For a response that reports success with the elements [es], the
    characters view shows one entry per element of type [character], in
    order, reading name, space, description in brackets; the locations
    view shows one entry per element of type [location], in order,
    reading the name alone; elements of another type give no entry in
    either view. *)
Theorem loadStoryLogic_projects_views :
  let w' := final (loadStoryLogic storyId (Fulfilled r) w) in
  returned (loadStoryLogic storyId (Fulfilled r) w) = true /\
  characters_list w' =
    Some (map (fun e => el_name e ++ lit " (" ++ el_description e ++ lit ")")
            (filter (fun e => str_eqb (el_type e) (lit "character")) es)) /\
  locations_list w' =
    Some (map el_name
            (filter (fun e => str_eqb (el_type e) (lit "location")) es)).
Proof.
  unfold loadStoryLogic; run.
  unfold fetch, fetch_with, json; run. rewrite Hbody. simpl.
  rewrite Hsuccess. simpl. rewrite Htruthy, Hdata. simpl.
  match goal with
  | |- context [updateStoryLogicPanel storyData ?w0] =>
      destruct (updateStoryLogicPanel_run w0 storyData _
                  Hcharacters Hlocations Helements
                  (readable_element_json es))
        as (w' & Hrun & Hc & Hl)
  end.
  rewrite Hrun. simpl.
  rewrite Hc, Hl, characters_of_elements, locations_of_elements. auto.
Qed.

End LoadStoryLogic.

(** *** The mirror between the in-memory list and the transcript *)

(** Once the in-memory list holds two entries or more, a resync that goes
    through leaves it longer than the transcript: the transcript is
    replaced, the list only grows. *)
Lemma loadMessages_outgrows_transcript (w : World) (story : Story)
  (nodes : list Node) (r : Response) (js : list JsValue) :
  currentStory w = Some story ->
  chat_messages w = Some nodes ->
  body r = Json (JArr js) ->
  forallb readable js = true ->
  2 <= List.length (messages w) ->
  let w' := final (loadMessages (Fulfilled r) w) in
  List.length (transcript w') < List.length (messages w') /\ ~ mirrored w'.
Proof.
  intros Hs Hn Hb Hjs Hlen.
  destruct (loadMessages_run w story nodes r js Hs Hn Hb Hjs)
    as (w' & Hrun & Hc & Hm & _).
  rewrite Hrun. simpl.
  assert (Hlt : List.length (transcript w') < List.length (messages w')).
  { unfold transcript. rewrite Hc, Hm, !length_app, !length_map.
    unfold retained. destruct (querySelector_message_bot nodes); simpl; lia. }
  split; [exact Hlt|].
  unfold mirrored. intros Heq.
  apply (f_equal (@List.length Node)) in Heq.
  rewrite length_map in Heq.
  pose proof (filter_length_le is_message_node (transcript w')). lia.
Qed.

(** C2, on the session of the examples.  Before the send the in-memory
    list mirrors the transcript.  After the send and its resync the
    transcript has three messages (welcome, message, reply) and the list
    four (welcome, the optimistic message, message, reply): [loadMessages]
    empties the container but not [this.messages]. *)
Theorem resync_breaks_mirror :
  mirrored chatting /\
  mirrored (final (sendMessage (ok_json (JObj [])) chatting)) /\
  List.length
    (transcript
       (final (send_then_resync (ok_json (JObj []))
                 (ok_json server_transcript) chatting))) = 3 /\
  List.length
    (messages
       (final (send_then_resync (ok_json (JObj []))
                 (ok_json server_transcript) chatting))) = 4 /\
  ~ mirrored
      (final (send_then_resync (ok_json (JObj []))
                (ok_json server_transcript) chatting)).
Proof.
  split; [reflexivity|]. split; [reflexivity|].
  split; [reflexivity|]. split; [reflexivity|].
  unfold mirrored. vm_compute. discriminate.
Qed.

(** *** The story catalogue *)

Lemma truthy_readable (v : JsValue) : truthy v = true -> readable v = true.
Proof. destruct v; simpl; auto. Qed.

Lemma forEach_add_story (js : list JsValue) :
  forallb readable js = true ->
  forall (w : World) (items : list StoryItem),
    stories_list w = Some items ->
    exists w',
      forEach add_story js w = Ok tt w' /\
      stories_list w' = Some (items ++ map story_item js) /\
      error_divs w' = error_divs w.
Proof.
  induction js as [|story js IH]; intros Hjs w items Hitems.
  - exists w. simpl. rewrite app_nil_r. auto.
  - simpl in Hjs. apply andb_true_iff in Hjs as [Hstory Hjs].
    set (w1 := set_stories_list (Some (items ++ [story_item story])) w).
    assert (Hstep : add_story story w = Ok tt w1).
    { unfold add_story; run. rewrite !(get_prop_readable _ _ Hstory).
      simpl. rewrite Hitems. reflexivity. }
    destruct (IH Hjs w1 _ eq_refl) as (w' & Hrun & Hl & He).
    exists w'. simpl. unfold bind at 1. rewrite Hstep, Hrun, Hl, He.
    rewrite <- app_assoc. auto.
Qed.

Section LoadStories.

Variable w : World.

(** The request fails, or its body is not JSON: one notification, the
    list as it was. *)
Lemma loadStories_transport_failure (net : Settled) :
  (forall r, net = Fulfilled r -> exists m, body r = ParseFailure m) ->
  let w' := final (loadStories net w) in
  returned (loadStories net w) = true /\
  stories_list w' = stories_list w /\
  error_divs w' = error_divs w ++ [(next_node w, load_stories_failed)].
Proof.
  intros Hnet. unfold loadStories; run.
  unfold fetch, fetch_with, json; run.
  destruct net as [m|r]; simpl.
  - unfold console_error, showError, setTimeout; run. auto.
  - destruct (Hnet r eq_refl) as [m ->].
    unfold console_error, showError, setTimeout; run. auto.
Qed.

Variable r : Response.
Variable data : JsValue.
Hypothesis Hbody : body r = Json data.

(** [data], or [data.stories], is falsy: one notification, the list as it
    was. *)
Lemma loadStories_falsy :
  truthy data = false \/ truthy (field data (lit "stories")) = false ->
  let w' := final (loadStories (Fulfilled r) w) in
  returned (loadStories (Fulfilled r) w) = true /\
  stories_list w' = stories_list w /\
  error_divs w' = error_divs w ++ [(next_node w, load_stories_failed)].
Proof.
  intros Hfalsy. unfold loadStories; run.
  unfold fetch, fetch_with, json; run. rewrite Hbody. simpl.
  destruct (truthy data) eqn:Hd.
  - destruct Hfalsy as [|Hs]; [discriminate|].
    rewrite (get_prop_readable _ _ (truthy_readable _ Hd)). simpl.
    rewrite Hs. unfold console_error, showError, setTimeout; run. auto.
  - simpl. rewrite Hd.
    unfold console_error, showError, setTimeout; run. auto.
Qed.

(** [data.stories] is an array of values that are not [null]: the list
    shows them, and no notification appears. *)
Lemma loadStories_populates (js : list JsValue) :
  stories_list w <> None ->
  get_prop data (lit "stories") = inr (JArr js) ->
  truthy data = true ->
  forallb readable js = true ->
  let w' := final (loadStories (Fulfilled r) w) in
  returned (loadStories (Fulfilled r) w) = true /\
  stories_list w' = Some (map story_item js) /\
  error_divs w' = error_divs w.
Proof.
  intros Hlist Hstories Hd Hjs. unfold loadStories; run.
  unfold fetch, fetch_with, json; run. rewrite Hbody. simpl.
  rewrite Hd, Hstories. simpl. unfold populateStoriesList; run.
  destruct (stories_list w) as [items|] eqn:E; [|congruence].
  match goal with
  | |- context [forEach add_story js ?w0] =>
      destruct (forEach_add_story js Hjs w0 [] eq_refl)
        as (w' & Hrun & Hl & He)
  end.
  rewrite Hrun. simpl in *. auto.
Qed.

(** [data.stories] is truthy but no array: the list is emptied before
    [forEach] is found missing, and the notification follows. *)
Lemma loadStories_not_array_empties (stories : JsValue) :
  stories_list w <> None ->
  get_prop data (lit "stories") = inr stories ->
  truthy data = true ->
  truthy stories = true ->
  is_array stories = false ->
  let w' := final (loadStories (Fulfilled r) w) in
  returned (loadStories (Fulfilled r) w) = true /\
  stories_list w' = Some [] /\
  error_divs w' = error_divs w ++ [(next_node w, load_stories_failed)].
Proof.
  intros Hlist Hstories Hd Hs Harr. unfold loadStories; run.
  unfold fetch, fetch_with, json; run. rewrite Hbody. simpl.
  rewrite Hd, Hstories. simpl. rewrite Hs. unfold populateStoriesList; run.
  destruct (stories_list w) as [items|] eqn:E; [|congruence].
  destruct stories; simpl in *; try discriminate;
    unfold console_error, showError, setTimeout; run; auto.
Qed.

End LoadStories.

(** C5, where the code parts from it.  The page lists a story; the
    catalogue arrives as an object whose [stories] is [true].  The one
    notification appears, but the list has been emptied. *)
Theorem loadStories_wrong_shape_empties_list :
  stories_list page_with_story = Some [story_item the_fox_json] /\
  stories_list (final (loadStories (ok_json stories_not_a_list)
                         page_with_story)) = Some [] /\
  error_divs (final (loadStories (ok_json stories_not_a_list)
                       page_with_story)) = [(0, load_stories_failed)].
Proof. repeat split; reflexivity. Qed.

(** A catalogue whose second story is [null] leaves the first one in the
    list and shows the notification: the list is filled entry by entry. *)
Lemma loadStories_null_story_fills_partly :
  stories_list (final (loadStories (ok_json stories_with_null) fresh_page))
    = Some [story_item the_fox_json] /\
  error_divs (final (loadStories (ok_json stories_with_null) fresh_page))
    = [(0, load_stories_failed)].
Proof. split; reflexivity. Qed.

(* ===================================================================== *)
(** ** The properties on the example session *)
(* ===================================================================== *)

Lemma sendMessage_blank_noop_example :
  (message_input typing_blanks = Some (lit "   ") /\
   trim (lit "   ") = []) /\
  sendMessage (Rejected []) typing_blanks = Ok tt typing_blanks.
Proof.
  split; [split; reflexivity|].
  destruct (sendMessage_blank_noop typing_blanks (lit "   ") (Rejected [])
              eq_refl eq_refl) as [E _].
  exact E.
Defined.

(** C3 as it stands fails on a blank input: with no story selected and
    three spaces typed, [sendMessage] shows no notification at all, where
    the claim has exactly one. *)
Lemma sendMessage_blank_no_story_shows_nothing :
  currentStory typing_blanks = None /\
  message_input typing_blanks = Some (lit "   ") /\
  error_divs (final (sendMessage (Rejected []) typing_blanks)) =
    error_divs typing_blanks /\
  List.length (error_divs (final (sendMessage (Rejected []) typing_blanks)))
    <> S (List.length (error_divs typing_blanks)).
Proof. repeat split; try reflexivity. vm_compute. discriminate. Qed.

Lemma sendMessage_no_story_reports_once_example :
  (message_input typing_early = Some (lit "hi") /\
   trim (lit "hi") <> [] /\
   currentStory typing_early = None) /\
  error_divs (final (sendMessage (Rejected []) typing_early)) =
    [(0, lit "Please select a story first.")] /\
  requests (final (sendMessage (Rejected []) typing_early)) = [
    {| req_method := GET; req_url := apiBase ++ lit "/stories";
       req_body := NoBody |}].
Proof.
  assert (Hfull : trim (lit "hi") <> []) by (vm_compute; discriminate).
  split; [repeat (split; try reflexivity); exact Hfull|].
  destruct (sendMessage_no_story_reports_once typing_early (lit "hi")
              (Rejected []) eq_refl Hfull eq_refl)
    as (_ & He & _ & _ & Hr).
  split; [exact He|exact Hr].
Defined.

Lemma clearChat_leaves_welcome_example :
  chat_messages chatting <> None /\
  chat_messages (final (clearChat chatting)) =
    Some [messageDiv (JStr welcome_text) (JStr (lit "bot"))].
Proof.
  assert (H : chat_messages chatting <> None) by (vm_compute; discriminate).
  split; [exact H|].
  destruct (clearChat_leaves_welcome chatting H) as (_ & Hc & _).
  exact Hc.
Defined.

Lemma cancelUpload_example :
  UploadFlow.complete UploadFlow.ready = true /\
  UploadFlow.pdfUploadModal
    (final (UploadFlow.cancelUpload UploadFlow.ready)) = Some (lit "none") /\
  UploadFlow.progressBar
    (final (UploadFlow.cancelUpload UploadFlow.ready)) = Some (lit "0%").
Proof.
  split; [reflexivity|].
  destruct (cancelUpload_resets_and_is_idempotent UploadFlow.ready eq_refl)
    as (_ & _ & _ & _ & Hbar & _ & _ & Hmodal & _).
  split; [exact Hmodal|exact Hbar].
Defined.

Lemma confirmUpload_non_ok_example :
  (UploadFlow.complete UploadFlow.ready = true /\
   UploadFlow.pdfFileInput UploadFlow.ready = Some (Some UploadFlow.story_pdf) /\
   ok UploadFlow.server_error = false) /\
  UploadFlow.uploadStatus
    (final (UploadFlow.confirmUpload (Fulfilled UploadFlow.server_error)
              UploadFlow.ready)) =
    Some {| UploadFlow.textContent :=
              lit "Error: Upload failed: Internal Server Error";
            UploadFlow.color := lit "red" |} /\
  UploadFlow.pdfUploadModal
    (final (UploadFlow.confirmUpload (Fulfilled UploadFlow.server_error)
              UploadFlow.ready)) = Some (lit "block").
Proof.
  split; [repeat split; reflexivity|].
  destruct (confirmUpload_non_ok_reports UploadFlow.ready
              UploadFlow.story_pdf UploadFlow.server_error
              eq_refl eq_refl eq_refl)
    as (_ & Hs & _ & _ & Hm & _).
  split; [exact Hs|exact Hm].
Defined.

Lemma submitExpansion_no_story_example :
  (expansion_text proposing_early = Some (lit "add a dragon") /\
   expansion_page proposing_early = Some (lit "3") /\
   currentStory proposing_early = None /\
   trim (lit "add a dragon") <> []) /\
  returned (submitExpansion (ok_json (JObj [(lit "success", JBool true)]))
              proposing_early) = true /\
  error_divs
    (final (submitExpansion (ok_json (JObj [(lit "success", JBool true)]))
              proposing_early)) =
    [(0, lit "Failed to submit expansion. Please check your connection.")].
Proof.
  assert (Hfull : trim (lit "add a dragon") <> [])
    by (vm_compute; discriminate).
  split; [repeat (split; try reflexivity); exact Hfull|].
  destruct (submitExpansion_no_story_is_caught proposing_early
              (lit "add a dragon") (lit "3")
              (ok_json (JObj [(lit "success", JBool true)]))
              eq_refl eq_refl eq_refl Hfull)
    as (Hret & He & _).
  split; [exact Hret|exact He].
Defined.

Lemma send_then_resync_example :
  (message_input chatting = Some (lit "hi") /\
   trim (lit "hi") <> [] /\
   currentStory chatting = Some the_fox /\
   chat_messages chatting =
     Some [messageDiv (JStr welcome_text) (JStr (lit "bot"));
           SystemDiv (lit "Selected story: The Fox")] /\
   List.length
     (filter matches_message_bot
        [messageDiv (JStr welcome_text) (JStr (lit "bot"));
         SystemDiv (lit "Selected story: The Fox")]) <= 1) /\
  chat_messages
    (final (send_then_resync (ok_json (JObj [])) (ok_json server_transcript)
              chatting)) =
    Some [messageDiv (JStr welcome_text) (JStr (lit "bot"));
          messageDiv (JStr (lit "hi")) (JStr (lit "user"));
          messageDiv (JStr (lit "Hello there")) (JStr (lit "bot"))].
Proof.
  assert (Hfull : trim (lit "hi") <> []) by (vm_compute; discriminate).
  assert (Hone : List.length
                   (filter matches_message_bot
                      [messageDiv (JStr welcome_text) (JStr (lit "bot"));
                       SystemDiv (lit "Selected story: The Fox")]) <= 1)
    by (vm_compute; lia).
  split.
  { split; [reflexivity|]. split; [exact Hfull|].
    split; [reflexivity|]. split; [reflexivity|exact Hone]. }
  destruct (send_then_resync_transcript chatting (lit "hi") the_fox
              [messageDiv (JStr welcome_text) (JStr (lit "bot"));
               SystemDiv (lit "Selected story: The Fox")]
              (ok_response (JObj [])) (JObj [])
              eq_refl Hfull eq_refl eq_refl eq_refl eq_refl
              (ok_response server_transcript)
              [server_message "hi" "user"; server_message "Hello there" "bot"]
              eq_refl eq_refl)
    as (_ & _ & Hwelcome & _).
  exact (Hwelcome Hone).
Defined.

Lemma loadStoryLogic_example :
  (characters_list started <> None /\ locations_list started <> None) /\
  characters_list
    (final (loadStoryLogic (lit "s1") (ok_json fox_logic) started)) =
    Some [lit "Fox (a sly fox)"; lit "Hen (wary)"] /\
  locations_list
    (final (loadStoryLogic (lit "s1") (ok_json fox_logic) started)) =
    Some [lit "Forest"].
Proof.
  assert (Hc : characters_list started <> None) by (vm_compute; discriminate).
  assert (Hl : locations_list started <> None) by (vm_compute; discriminate).
  split; [split; assumption|].
  destruct (loadStoryLogic_projects_views started (lit "s1")
              (ok_response fox_logic) fox_logic (JBool true) fox_logic_data
              fox_elements Hc Hl eq_refl eq_refl eq_refl eq_refl eq_refl)
    as (_ & Hcs & Hls).
  split; [exact Hcs|exact Hls].
Defined.

(* ===================================================================== *)
(** ** What the handlers leave alone *)
(* ===================================================================== *)

Section Preservation.

Context {S : Type} (P : S -> Prop).

Lemma preserves_ret {A} (a : A) : preserves P (ret a).
Proof. intros s Hs; exact Hs. Qed.

Lemma preserves_throw {A} (e : JsError) : preserves P (@throw S A e).
Proof. intros s Hs; exact Hs. Qed.

Lemma preserves_get : preserves P get.
Proof. intros s Hs; exact Hs. Qed.

Lemma preserves_modify (f : S -> S) :
  (forall s, P s -> P (f s)) -> preserves P (modify f).
Proof. intros Hf s Hs; exact (Hf s Hs). Qed.

Lemma preserves_bind {A B} (m : M S A) (k : A -> M S B) :
  preserves P m -> (forall a, preserves P (k a)) -> preserves P (bind m k).
Proof.
  intros Hm Hk s Hs. unfold bind. specialize (Hm s Hs).
  destruct (m s) as [a s'|e s']; simpl in *; [apply Hk|]; assumption.
Qed.

Lemma preserves_try_catch {A} (body : M S A) (handler : JsError -> M S A) :
  preserves P body -> (forall e, preserves P (handler e)) ->
  preserves P (try_catch body handler).
Proof.
  intros Hb Hh s Hs. unfold try_catch. specialize (Hb s Hs).
  destruct (body s) as [a s'|e s']; simpl in *; [|apply Hh]; assumption.
Qed.

Lemma preserves_try_finally {A} (body : M S A) (cleanup : M S unit) :
  preserves P body -> preserves P cleanup ->
  preserves P (try_finally body cleanup).
Proof.
  intros Hb Hc s Hs. unfold try_finally. specialize (Hb s Hs).
  destruct (body s) as [a s'|e s']; simpl in *;
    specialize (Hc s' Hb); destruct (cleanup s'); exact Hc.
Qed.

Lemma preserves_forEach {A} (f : A -> M S unit) (xs : list A) :
  (forall x, preserves P (f x)) -> preserves P (forEach f xs).
Proof.
  intros Hf. induction xs as [|x xs IH]; simpl.
  - apply preserves_ret.
  - apply preserves_bind; [apply Hf|intros _; exact IH].
Qed.

(** The request goes out first; what holds once it is logged and is carried
    by the rest of the handler holds at the end. *)
Lemma preserves_after_fetch {A} (log : Request -> S -> S) (rq : Request)
  (net : Settled) (k : Response -> M S A) (handler : JsError -> M S A) :
  (forall r, preserves P (k r)) ->
  (forall e, preserves P (handler e)) ->
  forall s, P (log rq s) ->
       P (final (try_catch (bind (fetch_with log rq net) k) handler s)).
Proof.
  intros Hk Hh s Hs.
  unfold try_catch, bind, fetch_with, modify. simpl.
  destruct net as [m|r]; simpl.
  - apply Hh, Hs.
  - specialize (Hk r _ Hs). destruct (k r (log rq s)) as [a s'|e s'];
      simpl in *; [|apply Hh]; assumption.
Qed.

End Preservation.

Lemma returned_try_catch {S A} (body : M S A) (handler : JsError -> M S A) :
  (forall e s, returned (handler e s) = true) ->
  forall s, returned (try_catch body handler s) = true.
Proof.
  intros Hh s. unfold try_catch. destruct (body s); [reflexivity|apply Hh].
Qed.

Lemma preserves_filterM (P : World -> Prop)
  (p : JsValue -> M World bool) (xs : list JsValue) :
  (forall x, preserves P (p x)) -> preserves P (filterM p xs).
Proof.
  intros Hp. induction xs as [|x xs IH]; simpl.
  - apply preserves_ret.
  - apply preserves_bind; [apply Hp|intros keep].
    apply preserves_bind; [exact IH|intros kept]. apply preserves_ret.
Qed.

(** One step of a proof that a handler carries a property: the shape of
    the computation decides the rule. *)
Ltac preserve_step leaf :=
  lazymatch goal with
  | |- preserves _ (bind _ _) => apply preserves_bind; [|intro]
  | |- preserves _ (try_catch _ _) => apply preserves_try_catch; [|intro]
  | |- preserves _ (try_finally _ _) => apply preserves_try_finally
  | |- preserves _ (ret _) => apply preserves_ret
  | |- preserves _ (throw _) => apply preserves_throw
  | |- preserves _ get => apply preserves_get
  | |- preserves _ (forEach _ _) => apply preserves_forEach; intro
  | |- preserves _ (filterM _ _) => apply preserves_filterM; intro
  | |- preserves _ (modify _) => apply preserves_modify; leaf
  | |- preserves _ (match ?x with _ => _ end) => destruct x
  | |- preserves _ _ => leaf
  end.

Ltac unfold_handlers :=
  unfold sendMessage, loadMessages, clearChat, loadStories,
    populateStoriesList, loadStoryLogic, updateStoryLogicPanel,
    show_characters, show_locations, show_rules, openExpansionModal,
    closeExpansionModal, submitExpansion, add_fetched, add_story,
    add_character, add_location, type_is, showError, removeErrorDiv,
    showLoading, hideLoading, js_forEach, js_filter, fetch, fetch_with,
    json, console_error, setTimeout, deref, lift, when.

Ltac preserve leaf := unfold_handlers; cbv zeta; repeat preserve_step leaf.

(** A setter of another part of the state. *)
Ltac other_part := intros ? ?; simpl in *; assumption.

Ltac unfold_transcript :=
  unfold addWelcomeMessage, addSystemMessage, addMessage.

(** The same, looking into the handlers of the transcript as well. *)
Ltac preserve_all leaf :=
  unfold_handlers; unfold_transcript; cbv zeta; repeat preserve_step leaf.

(* ===================================================================== *)
(** ** The upload dialog *)
(* ===================================================================== *)

Section UploadDialog.

Import UploadFlow.

Ltac settle net :=
  unfold confirmUpload, fetch, fetch_with, json, console_error, setTimeout;
  run;
  try (destruct net as [?m|?r]; simpl;
       [|destruct (ok _) eqn:?Hok; simpl;
         [destruct (body _) as [?m|?v] eqn:?Hbody; simpl|]]).

(** X1. The file input changes: the label shows the name of the chosen
    file and confirm is enabled; with the selection emptied the label
    shows the sentinel and confirm is disabled.  The modal, the progress
    display and the status line stay as they are. *)
Theorem fileChanged_shows_choice (d : Dialog) (chosen : option File) :
  complete d = true ->
  let d' := final (fileChanged chosen d) in
  returned (fileChanged chosen d) = true /\
  pdfFileInput d' = Some chosen /\
  selectedFileName d' =
    Some (match chosen with
          | Some file => file_name file
          | None => lit "No file selected"
          end) /\
  confirmUploadBtn d' = Some (negb (present chosen)) /\
  pdfUploadModal d' = pdfUploadModal d /\
  uploadProgress d' = uploadProgress d /\
  uploadStatus d' = uploadStatus d /\
  requests d' = requests d.
Proof.
  intros Hall. unfold fileChanged; run.
  destruct d as [modal input label confirm cancel progress bar status rq tm cs].
  unfold complete in Hall; simpl in *.
  destruct modal, input, label, confirm, cancel, progress, bar, status;
    simpl in *; try discriminate.
  destruct chosen; simpl; repeat split; reflexivity.
Qed.

(** X2. However the request settles, a click on confirm with a file chosen
    sends exactly one request, the file under the field [file] to the
    upload endpoint, and ends with confirm and cancel enabled and the
    progress display shown; the modal, the chosen file and its label are
    untouched. *)
Theorem confirmUpload_settles (d : Dialog) (file : File) (net : Settled) :
  complete d = true ->
  pdfFileInput d = Some (Some file) ->
  let d' := final (confirmUpload net d) in
  returned (confirmUpload net d) = true /\
  requests d' = requests d ++ [upload_request file] /\
  confirmUploadBtn d' = Some false /\
  cancelUploadBtn d' = Some false /\
  uploadProgress d' = Some (lit "block") /\
  pdfUploadModal d' = pdfUploadModal d /\
  pdfFileInput d' = Some (Some file) /\
  selectedFileName d' = selectedFileName d.
Proof.
  intros Hall Hfile.
  destruct d as [modal input label confirm cancel progress bar status rq tm cs].
  unfold complete in Hall; simpl in *. subst input.
  destruct modal, label, confirm, cancel, progress, bar, status;
    simpl in *; try discriminate.
  settle net; repeat split; reflexivity.
Qed.

(** X3. When the upload is answered with a status in 200-299 and a JSON
    body, the bar goes to 100%, the status line reads the success text in
    whatever colour it had, a reload is set for one second later, and
    nothing is written to the console. *)
Theorem confirmUpload_success (d : Dialog) (file : File) (r : Response)
  (v : JsValue) :
  complete d = true ->
  pdfFileInput d = Some (Some file) ->
  ok r = true ->
  body r = Json v ->
  let d' := final (confirmUpload (Fulfilled r) d) in
  progressBar d' = Some (lit "100%") /\
  uploadStatus d' =
    option_map
      (fun st => {| textContent := lit "Upload successful! Loading story...";
                    color := color st |})
      (uploadStatus d) /\
  timers d' = timers d ++ [(1000%N, ReloadPage)] /\
  console d' = console d.
Proof.
  intros Hall Hfile Hok Hbody.
  destruct d as [modal input label confirm cancel progress bar status rq tm cs].
  unfold complete in Hall; simpl in *. subst input.
  destruct modal, label, confirm, cancel, progress, bar, status;
    simpl in *; try discriminate.
  unfold confirmUpload, fetch, fetch_with, json, console_error, setTimeout;
    run.
  rewrite Hok, Hbody. simpl. repeat split; reflexivity.
Qed.

(** X4. When the upload request is rejected, or answered with a body that
    is not JSON even under an OK status, the status line reads [Error: ]
    and the message of the error, in red; no reload is set, the bar stays
    where it was and the error is written to the console. *)
Theorem confirmUpload_transport_failure (d : Dialog) (file : File)
  (net : Settled) (e : JsError) :
  complete d = true ->
  pdfFileInput d = Some (Some file) ->
  transport_failure net = Some e ->
  (forall r, net = Fulfilled r -> ok r = true) ->
  let d' := final (confirmUpload net d) in
  uploadStatus d' =
    Some {| textContent := lit "Error: " ++ message e; color := lit "red" |} /\
  timers d' = timers d /\
  progressBar d' = progressBar d /\
  console d' = console d ++ [(lit "Error uploading PDF:", Some e)].
Proof.
  intros Hall Hfile Hfail Hstatus.
  destruct d as [modal input label confirm cancel progress bar status rq tm cs].
  unfold complete in Hall; simpl in *. subst input.
  destruct modal, label, confirm, cancel, progress, bar, status;
    simpl in *; try discriminate.
  unfold confirmUpload, fetch, fetch_with, json, console_error, setTimeout;
    run.
  destruct net as [m|r]; simpl in *.
  - injection Hfail as <-. repeat split; reflexivity.
  - rewrite (Hstatus r eq_refl). simpl.
    destruct (body r); [|discriminate].
    injection Hfail as <-. repeat split; reflexivity.
Qed.

(** X5. A refused upload followed by a successful one leaves the success
    text in red: the success path sets the text of the status line and
    never its colour. *)
Theorem retry_shows_success_in_red (d : Dialog) (file : File)
  (r1 r2 : Response) (v : JsValue) :
  complete d = true ->
  pdfFileInput d = Some (Some file) ->
  ok r1 = false ->
  ok r2 = true ->
  body r2 = Json v ->
  uploadStatus
    (final (confirmUpload (Fulfilled r2)
              (final (confirmUpload (Fulfilled r1) d)))) =
    Some {| textContent := lit "Upload successful! Loading story...";
            color := lit "red" |}.
Proof.
  intros Hall Hfile Hbad Hok Hbody.
  destruct d as [modal input label confirm cancel progress bar status rq tm cs].
  unfold complete in Hall; simpl in *. subst input.
  destruct modal, label, confirm, cancel, progress, bar, status;
    simpl in *; try discriminate.
  unfold confirmUpload, fetch, fetch_with, json, console_error, setTimeout;
    run.
  rewrite Hbad. simpl. rewrite Hok, Hbody. reflexivity.
Qed.

(** X6. Closing an open modal and opening it again gives back the very
    state it was closed in: the chosen file, its label, the progress and
    the status line are not reset by a dismissal. *)
Theorem dismiss_then_open_restores (d : Dialog) :
  pdfUploadModal d = Some (lit "block") ->
  pdfFileInput (final (dismissModal d)) = pdfFileInput d /\
  pdfUploadModal (final (dismissModal d)) = Some (lit "none") /\
  final (openModal (final (dismissModal d))) = d.
Proof.
  intros Hopen.
  destruct d as [modal input label confirm cancel progress bar status rq tm cs].
  simpl in *. subst modal. repeat split; reflexivity.
Qed.

(** X7. After a cancel, a click on confirm does nothing: no file is
    chosen any more, so the handler returns before it sends anything. *)
Theorem cancel_then_confirm_sends_nothing (d : Dialog) (net : Settled) :
  complete d = true ->
  confirmUpload net (final (cancelUpload d)) = Ok tt (final (cancelUpload d)).
Proof.
  intros Hall.
  destruct d as [modal input label confirm cancel progress bar status rq tm cs].
  unfold complete in Hall; simpl in *.
  destruct modal, input, label, confirm, cancel, progress, bar, status;
    simpl in *; try discriminate.
  reflexivity.
Qed.



End UploadDialog.

(* ===================================================================== *)
(** ** Sending *)
(* ===================================================================== *)

Section SendOutcomes.

Variable w : World.
Variable x : jsstring.
Variable story : Story.
Variable nodes : list Node.
Hypothesis Hinput : message_input w = Some x.
Hypothesis Hfull : trim x <> [].
Hypothesis Hstory : currentStory w = Some story.
Hypothesis Hnodes : chat_messages w = Some nodes.

Ltac send_cases net :=
  unfold sendMessage; run; rewrite Hinput; simpl;
  destruct (trim x) as [|c rest] eqn:E; [congruence|];
  rewrite Hstory; unfold addMessage; run; rewrite Hnodes; simpl;
  unfold fetch, fetch_with, json, showError, console_error, setTimeout,
    showLoading, hideLoading; run.

(** X9. However the request settles, a send with a story selected and a
    message that is not blank returns normally, has put the trimmed
    message at the end of the transcript and of the in-memory list, has
    emptied the input, has sent exactly one request carrying the trimmed
    message with sender [user] to the story's endpoint, and leaves the
    send button enabled with its label back. *)
Theorem sendMessage_settles (net : Settled) :
  let w' := final (sendMessage net w) in
  returned (sendMessage net w) = true /\
  chat_messages w' =
    Some (nodes ++ [messageDiv (JStr (trim x)) (JStr (lit "user"))]) /\
  messages w' =
    messages w ++ [{| msg_text := JStr (trim x);
                      msg_sender := JStr (lit "user");
                      msg_timestamp := clock w |}] /\
  message_input w' = Some [] /\
  requests w' = requests w ++ [message_request story (trim x)] /\
  send_btn w' = option_map (fun _ => send_ready) (send_btn w).
Proof.
  send_cases net.
  destruct net as [m|r]; simpl.
  - destruct (send_btn w); repeat split; reflexivity.
  - destruct (body r); simpl; [|destruct (ok r); simpl];
      destruct (send_btn w); repeat split; reflexivity.
Qed.

(** X10. A send answered with JSON under a status outside 200-299 shows
    the one notification that asks to try again; the only timer set is
    the one that removes the notification, so no resync follows and the
    optimistic message stays; nothing is written to the console. *)
Theorem sendMessage_refused (r : Response) (v : JsValue) :
  ok r = false ->
  body r = Json v ->
  let w' := final (sendMessage (Fulfilled r) w) in
  error_divs w' =
    error_divs w ++
      [(next_node w, lit "Failed to send message. Please try again.")] /\
  timers w' = timers w ++ [(3000%N, RemoveErrorDiv (next_node w))] /\
  console w' = console w /\
  chat_messages w' =
    Some (nodes ++ [messageDiv (JStr (trim x)) (JStr (lit "user"))]).
Proof.
  intros Hbad Hbody. send_cases net. rewrite Hbody, Hbad. simpl.
  repeat split; reflexivity.
Qed.

(** X11. A send whose request is rejected, or whose answer is not JSON
    whatever its status, shows the one notification that blames the
    connection and writes the error to the console; no resync is set and
    the optimistic message stays. *)
Theorem sendMessage_transport_failure (net : Settled) (e : JsError) :
  transport_failure net = Some e ->
  let w' := final (sendMessage net w) in
  error_divs w' =
    error_divs w ++
      [(next_node w,
        lit "Failed to send message. Please check your connection.")] /\
  timers w' = timers w ++ [(3000%N, RemoveErrorDiv (next_node w))] /\
  console w' = console w ++ [(lit "Error sending message:", Some e)] /\
  chat_messages w' =
    Some (nodes ++ [messageDiv (JStr (trim x)) (JStr (lit "user"))]).
Proof.
  intros Hfail. send_cases net.
  destruct net as [m|r]; simpl in *.
  - injection Hfail as <-. repeat split; reflexivity.
  - destruct (body r); [|discriminate]. injection Hfail as <-.
    simpl. repeat split; reflexivity.
Qed.

End SendOutcomes.

(* ===================================================================== *)
(** ** The mirror under the handlers *)
(* ===================================================================== *)

Lemma addMessage_mirrored (text sender : JsValue) :
  preserves mirrored (addMessage text sender).
Proof.
  intros w Hw. unfold addMessage; run.
  destruct (chat_messages w) as [nodes|] eqn:E; simpl; [|exact Hw].
  unfold mirrored, transcript in *; simpl. rewrite E in Hw.
  rewrite filter_app, map_app, Hw. reflexivity.
Qed.

Lemma addSystemMessage_mirrored (text : jsstring) :
  preserves mirrored (addSystemMessage text).
Proof.
  intros w Hw. unfold addSystemMessage; run.
  destruct (chat_messages w) as [nodes|] eqn:E; simpl; [|exact Hw].
  unfold mirrored, transcript in *; simpl. rewrite E in Hw.
  rewrite filter_app. simpl. rewrite app_nil_r. exact Hw.
Qed.

Lemma clearChat_always_mirrored (w : World) :
  mirrored w -> mirrored (final (clearChat w)).
Proof.
  intros Hw. destruct (chat_messages w) as [nodes|] eqn:E.
  - apply clearChat_mirrored. congruence.
  - unfold clearChat; run. rewrite E. exact Hw.
Qed.

(** A step that touches neither the transcript nor the list, or adds to
    both. *)
Ltac mirror_leaf :=
  first [ apply addMessage_mirrored
        | apply addSystemMessage_mirrored
        | intros ? ?; unfold mirrored, transcript in *; simpl in *;
          assumption ].

Lemma act_keeps_mirror (a : Action) : preserves mirrored (act a).
Proof.
  destruct a; simpl act; try (preserve mirror_leaf; fail).
  intros w. apply clearChat_always_mirrored.
Qed.

(** X12. From a state where the in-memory list mirrors the transcript,
    every sequence of typing, sends of any outcome, clears, expansion
    proposals of any outcome, notices, story logic loads and notification
    timers ends in a state where it still does.  Only the resync is not
    among them. *)
Theorem dispatch_keeps_mirror (actions : list Action) (w : World) :
  mirrored w -> mirrored (dispatch actions w).
Proof.
  revert w. induction actions as [|a actions IH]; intros w Hw; simpl.
  - exact Hw.
  - apply IH, act_keeps_mirror, Hw.
Qed.

(* ===================================================================== *)
(** ** The resync *)
(* ===================================================================== *)

Lemma loadMessages_frame (w : World) (net : Settled) :
  returned (loadMessages net w) = true /\
  error_divs (final (loadMessages net w)) = error_divs w /\
  timers (final (loadMessages net w)) = timers w /\
  currentStory (final (loadMessages net w)) = currentStory w /\
  message_input (final (loadMessages net w)) = message_input w.
Proof.
  split.
  { unfold loadMessages. unfold bind at 1. unfold get. cbv beta iota.
    destruct (currentStory w); [|reflexivity].
    apply returned_try_catch. reflexivity. }
  assert (H : preserves
                (fun s => error_divs s = error_divs w /\
                          timers s = timers w /\
                          currentStory s = currentStory w /\
                          message_input s = message_input w)
                (loadMessages net)).
  { preserve_all other_part. }
  apply H. auto.
Qed.

(** X13. Whatever the state and whatever comes back, be it a rejection, a
    body that is not JSON or JSON of any shape, [loadMessages] returns
    normally and shows no notification; it sets no timer and leaves the
    selected story and the input alone.  With no story selected it does
    nothing at all. *)
Theorem loadMessages_is_silent (w : World) (net : Settled) :
  returned (loadMessages net w) = true /\
  error_divs (final (loadMessages net w)) = error_divs w /\
  timers (final (loadMessages net w)) = timers w /\
  currentStory (final (loadMessages net w)) = currentStory w /\
  message_input (final (loadMessages net w)) = message_input w /\
  (currentStory w = None -> loadMessages net w = Ok tt w).
Proof.
  destruct (loadMessages_frame w net) as (Hr & He & Ht & Hs & Hi).
  repeat split; auto.
  intros Hnone. unfold loadMessages; run. now rewrite Hnone.
Qed.

Section ResyncEdges.

Variable w : World.
Variable story : Story.
Variable nodes : list Node.
Hypothesis Hstory : currentStory w = Some story.
Hypothesis Hnodes : chat_messages w = Some nodes.

(** X14. A resync whose request is rejected, or whose answer is not JSON,
    leaves the transcript and the in-memory list as they were; the error
    goes to the console only. *)
Theorem loadMessages_failure_keeps_transcript (net : Settled) (e : JsError) :
  transport_failure net = Some e ->
  let w' := final (loadMessages net w) in
  chat_messages w' = Some nodes /\
  messages w' = messages w /\
  requests w' = requests w ++ [messages_request story] /\
  console w' = console w ++ [(lit "Error loading messages:", Some e)].
Proof.
  intros Hfail. unfold loadMessages; run. rewrite Hstory.
  unfold fetch, fetch_with, json, console_error; run.
  destruct net as [m|r]; simpl in *.
  - injection Hfail as <-. auto.
  - destruct (body r); [|discriminate]. injection Hfail as <-. simpl. auto.
Qed.

(** X15. A resync answered with JSON that is no array has already emptied
    the container when [forEach] is found missing: the transcript is
    left with the retained element alone, the in-memory list is as it
    was, and the error goes to the console only. *)
Theorem loadMessages_not_array_drops_transcript (r : Response)
  (v : JsValue) :
  body r = Json v ->
  is_array v = false ->
  let w' := final (loadMessages (Fulfilled r) w) in
  chat_messages w' = Some (retained nodes) /\
  messages w' = messages w /\
  error_divs w' = error_divs w /\
  List.length (console w') = S (List.length (console w)).
Proof.
  intros Hbody Hv. unfold loadMessages; run. rewrite Hstory.
  unfold fetch, fetch_with, json, console_error; run.
  rewrite Hbody. simpl. rewrite Hnodes. simpl. unfold retained.
  destruct (querySelector_message_bot nodes); destruct v; simpl in *;
    try discriminate; rewrite ?length_app; simpl;
    repeat split; try reflexivity; lia.
Qed.

Variable r : Response.
Variable js : list JsValue.
Hypothesis Hbody : body r = Json (JArr js).
Hypothesis Hjs : forallb readable js = true.

Lemma loadMessages_twice_run :
  exists w1 w2,
    loadMessages (Fulfilled r) w = Ok tt w1 /\
    loadMessages (Fulfilled r) w1 = Ok tt w2 /\
    chat_messages w1 = Some (retained nodes ++ map rendered js) /\
    chat_messages w2 =
      Some (retained (retained nodes ++ map rendered js)
              ++ map rendered js).
Proof.
  destruct (loadMessages_run w story nodes r js Hstory Hnodes Hbody Hjs)
    as (w1 & Hrun1 & Hc1 & _).
  assert (Hs1 : currentStory w1 = Some story).
  { destruct (loadMessages_frame w (Fulfilled r)) as (_ & _ & _ & H & _).
    rewrite Hrun1 in H. simpl in H. congruence. }
  destruct (loadMessages_run w1 story _ r js Hs1 Hc1 Hbody Hjs)
    as (w2 & Hrun2 & Hc2 & _).
  exists w1, w2. auto.
Qed.

Lemma retained_fixed (rest : list Node) :
  retained nodes <> [] -> retained (retained nodes ++ rest) = retained nodes.
Proof.
  unfold retained, querySelector_message_bot.
  destruct (find matches_message_bot nodes) as [el|] eqn:E; [|congruence].
  intros _. apply find_some in E as [_ Hel]. simpl. now rewrite Hel.
Qed.

(** X16. When the transcript holds a [.message.bot] element, as it does
    from the welcome message on, a second resync with the same answer
    leaves the transcript as the first one did. *)
Theorem loadMessages_twice_same_transcript :
  retained nodes <> [] ->
  chat_messages
    (final (loadMessages (Fulfilled r)
              (final (loadMessages (Fulfilled r) w)))) =
  chat_messages (final (loadMessages (Fulfilled r) w)).
Proof.
  intros Hkept.
  destruct loadMessages_twice_run as (w1 & w2 & H1 & H2 & Hc1 & Hc2).
  rewrite H1. simpl. rewrite H2. simpl.
  rewrite Hc1, Hc2, retained_fixed by exact Hkept. reflexivity.
Qed.

(** X17. When the transcript holds no [.message.bot] element and the
    answer brings one, the first resync shows the fetched messages and
    the second shows the first fetched bot message twice: it is taken
    for the element to retain. *)
Theorem loadMessages_twice_repeats_first_bot (el : Node) :
  retained nodes = [] ->
  retained (map rendered js) = [el] ->
  chat_messages (final (loadMessages (Fulfilled r) w)) =
    Some (map rendered js) /\
  chat_messages
    (final (loadMessages (Fulfilled r)
              (final (loadMessages (Fulfilled r) w)))) =
    Some (el :: map rendered js) /\
  In el (map rendered js).
Proof.
  intros Hnone Hfirst.
  destruct loadMessages_twice_run as (w1 & w2 & H1 & H2 & Hc1 & Hc2).
  rewrite H1. simpl. rewrite H2. simpl.
  rewrite Hc1, Hc2, Hnone. simpl. rewrite Hfirst. simpl.
  repeat split.
  unfold retained, querySelector_message_bot in Hfirst.
  destruct (find matches_message_bot (map rendered js)) as [el'|] eqn:E;
    [|discriminate].
  injection Hfirst as <-. apply find_some in E. tauto.
Qed.

End ResyncEdges.

(* ===================================================================== *)
(** ** Clearing and starting *)
(* ===================================================================== *)


Lemma addMessage_run (w : World) (text sender : JsValue)
  (nodes : list Node) :
  chat_messages w = Some nodes ->
  addMessage text sender w =
    Ok tt
      (set_messages
         (messages w ++ [{| msg_text := text; msg_sender := sender;
                            msg_timestamp := clock w |}])
         (set_chat_messages (Some (nodes ++ [messageDiv text sender])) w)).
Proof. intros H. unfold addMessage; run. now rewrite H. Qed.

Lemma loadStories_frame (w : World) (net : Settled) :
  returned (loadStories net w) = true /\
  requests (final (loadStories net w)) = requests w ++ [stories_request] /\
  chat_messages (final (loadStories net w)) = chat_messages w /\
  messages (final (loadStories net w)) = messages w /\
  currentStory (final (loadStories net w)) = currentStory w /\
  clock (final (loadStories net w)) = clock w.
Proof.
  split.
  - unfold loadStories. apply returned_try_catch. reflexivity.
  - unfold loadStories, fetch.
    apply (preserves_after_fetch
             (fun s => requests s = requests w ++ [stories_request] /\
                       chat_messages s = chat_messages w /\
                       messages s = messages w /\
                       currentStory s = currentStory w /\
                       clock s = clock w));
      [intros r|intros e|simpl; auto 6].
    + preserve other_part.
    + preserve other_part.
Qed.

(** X19. Whatever comes back for the catalogue, be it a rejection, a body
    that is not JSON or JSON of any shape, [loadStories] returns normally,
    has sent the one request for the catalogue, and has left the
    transcript, the in-memory list and the selected story as they were. *)
Theorem loadStories_leaves_conversation (w : World) (net : Settled) :
  returned (loadStories net w) = true /\
  requests (final (loadStories net w)) = requests w ++ [stories_request] /\
  chat_messages (final (loadStories net w)) = chat_messages w /\
  messages (final (loadStories net w)) = messages w /\
  currentStory (final (loadStories net w)) = currentStory w.
Proof.
  destruct (loadStories_frame w net) as (H1 & H2 & H3 & H4 & H5 & _). auto.
Qed.

(** X20. However the catalogue request settles, a new controller on a
    page with the transcript container has no story selected, has sent
    the one request for the catalogue, shows the welcome message after
    whatever the container held, and remembers the welcome message alone;
    on a container without messages the list mirrors the transcript. *)
Theorem new_StoryWeaverApp_starts (w : World) (nodes : list Node)
  (net : Settled) :
  chat_messages w = Some nodes ->
  let w' := final (new_StoryWeaverApp net w) in
  returned (new_StoryWeaverApp net w) = true /\
  currentStory w' = None /\
  requests w' = requests w ++ [stories_request] /\
  chat_messages w' = Some (nodes ++ [welcome_node]) /\
  messages w' =
    [{| msg_text := JStr welcome_text; msg_sender := JStr (lit "bot");
        msg_timestamp := clock w |}] /\
  (filter is_message_node nodes = [] -> mirrored w').
Proof.
  intros Hnodes.
  set (w0 := set_messages [] (set_currentStory None w)).
  destruct (loadStories_frame w0 net) as (Hret & Hrq & Hc & Hm & Hs & Hk).
  assert (E : new_StoryWeaverApp net w =
              addWelcomeMessage (final (loadStories net w0))).
  { unfold new_StoryWeaverApp, init; run. fold w0.
    destruct (loadStories net w0); [reflexivity|discriminate]. }
  rewrite E. clear E.
  assert (Hc0 : chat_messages (final (loadStories net w0)) = Some nodes)
    by (rewrite Hc; exact Hnodes).
  unfold addWelcomeMessage. rewrite (addMessage_run _ _ _ _ Hc0). simpl.
  rewrite Hm, Hs, Hk, Hrq. simpl.
  repeat split; try reflexivity.
  intros Hplain. unfold mirrored, transcript. simpl.
  rewrite filter_app, Hplain. reflexivity.
Qed.

(* ===================================================================== *)
(** ** The catalogue *)
(* ===================================================================== *)

(** X21. When the catalogue does not arrive (the request is rejected, the
    body is not JSON, or [data] or [data.stories] is falsy), exactly one
    notification asks to try again and the story list is as it was. *)
Theorem loadStories_reports_missing_catalogue (w : World) (net : Settled) :
  no_catalogue net = true ->
  let w' := final (loadStories net w) in
  stories_list w' = stories_list w /\
  error_divs w' = error_divs w ++ [(next_node w, load_stories_failed)].
Proof.
  intros Hno. destruct net as [m|r]; simpl in Hno.
  - destruct (loadStories_transport_failure w (Rejected m)) as (_ & Hl & He);
      [intros r; discriminate|auto].
  - destruct (body r) as [m|data] eqn:Hbody.
    + destruct (loadStories_transport_failure w (Fulfilled r))
        as (_ & Hl & He); [|auto].
      intros r' [= <-]. eauto.
    + destruct (loadStories_falsy w r data Hbody) as (_ & Hl & He); [|auto].
      apply orb_true_iff in Hno as [H|H]; apply negb_true_iff in H; auto.
Qed.

Lemma story_items_of_stories (ss : list Story) :
  map story_item (map story_json ss) = map item_of_story ss.
Proof. induction ss as [|s ss IH]; simpl; [|rewrite IH]; reflexivity. Qed.

Lemma readable_story_json (ss : list Story) :
  forallb readable (map story_json ss) = true.
Proof. induction ss; simpl; auto. Qed.

(** X22. When the answer carries the stories [ss], whatever its status,
    the story list shows one entry per story, in order, with the story's
    id as data id and its title as text, in place of whatever it listed
    before; no notification appears. *)
Theorem loadStories_lists_catalogue (w : World) (r : Response)
  (data : JsValue) (ss : list Story) :
  stories_list w <> None ->
  body r = Json data ->
  get_prop data (lit "stories") = inr (JArr (map story_json ss)) ->
  let w' := final (loadStories (Fulfilled r) w) in
  stories_list w' = Some (map item_of_story ss) /\
  error_divs w' = error_divs w.
Proof.
  intros Hlist Hbody Hstories.
  assert (Hd : truthy data = true).
  { destruct data; simpl in *; try discriminate; reflexivity. }
  destruct (loadStories_populates w r data Hbody (map story_json ss)
              Hlist Hstories Hd (readable_story_json ss))
    as (_ & Hl & He).
  rewrite <- story_items_of_stories. auto.
Qed.

(* ===================================================================== *)
(** ** The story logic *)
(* ===================================================================== *)

Lemma loadStoryLogic_frame (w : World) (storyId : jsstring) (net : Settled) :
  returned (loadStoryLogic storyId net w) = true /\
  requests (final (loadStoryLogic storyId net w)) =
    requests w ++ [story_logic_request storyId] /\
  error_divs (final (loadStoryLogic storyId net w)) = error_divs w /\
  chat_messages (final (loadStoryLogic storyId net w)) = chat_messages w /\
  messages (final (loadStoryLogic storyId net w)) = messages w /\
  currentStory (final (loadStoryLogic storyId net w)) = currentStory w /\
  stories_list (final (loadStoryLogic storyId net w)) = stories_list w.
Proof.
  split.
  - unfold loadStoryLogic. apply returned_try_catch. reflexivity.
  - unfold loadStoryLogic, fetch.
    apply (preserves_after_fetch
             (fun s => requests s = requests w ++ [story_logic_request storyId] /\
                       error_divs s = error_divs w /\
                       chat_messages s = chat_messages w /\
                       messages s = messages w /\
                       currentStory s = currentStory w /\
                       stories_list s = stories_list w));
      [intros r|intros e|simpl; auto 7].
    + preserve other_part.
    + preserve other_part.
Qed.

(** X23. Whatever comes back for the story logic, [loadStoryLogic]
    returns normally and shows no notification: a failure is written to
    the console only.  It sends the one request for the story and leaves
    the transcript, the in-memory list, the selected story and the story
    list alone, so sending goes on as before. *)
Theorem loadStoryLogic_is_silent (w : World) (storyId : jsstring)
  (net : Settled) :
  returned (loadStoryLogic storyId net w) = true /\
  requests (final (loadStoryLogic storyId net w)) =
    requests w ++ [story_logic_request storyId] /\
  error_divs (final (loadStoryLogic storyId net w)) = error_divs w /\
  chat_messages (final (loadStoryLogic storyId net w)) = chat_messages w /\
  messages (final (loadStoryLogic storyId net w)) = messages w /\
  currentStory (final (loadStoryLogic storyId net w)) = currentStory w /\
  stories_list (final (loadStoryLogic storyId net w)) = stories_list w.
Proof. apply loadStoryLogic_frame. Qed.

Section StoryLogicAgain.

Variable w : World.
Variable storyId : jsstring.
Variable r : Response.
Variables data success storyData : JsValue.
Variable js : list JsValue.
Hypothesis Hcharacters : characters_list w <> None.
Hypothesis Hlocations : locations_list w <> None.
Hypothesis Hbody : body r = Json data.
Hypothesis Hsuccess : get_prop data (lit "success") = inr success.
Hypothesis Hdata : get_prop data (lit "data") = inr storyData.

Lemma loadStoryLogic_run :
  truthy success = true ->
  get_prop storyData (lit "elements") = inr (JArr js) ->
  forallb readable js = true ->
  exists w',
    loadStoryLogic storyId (Fulfilled r) w = Ok tt w' /\
    characters_list w' =
      Some (map character_li (filter (has_type (lit "character")) js)) /\
    locations_list w' =
      Some (map location_li (filter (has_type (lit "location")) js)).
Proof.
  intros Htruthy Helements Hjs.
  unfold loadStoryLogic; run.
  unfold fetch, fetch_with, json; run. rewrite Hbody. simpl.
  rewrite Hsuccess. simpl. rewrite Htruthy, Hdata. simpl.
  match goal with
  | |- context [updateStoryLogicPanel storyData ?w0] =>
      destruct (updateStoryLogicPanel_run w0 storyData js
                  Hcharacters Hlocations Helements Hjs)
        as (w' & Hrun & Hc & Hl)
  end.
  rewrite Hrun. simpl. eauto.
Qed.

End StoryLogicAgain.

(** X24. The panel is replaced, not added to: for an answer that reports
    success with an array of elements, loading the story logic a second
    time with the same answer leaves the characters and the locations
    exactly as the first load did. *)
Theorem loadStoryLogic_twice_same_views (w : World) (storyId : jsstring)
  (r : Response) (data success storyData : JsValue) (js : list JsValue) :
  characters_list w <> None ->
  locations_list w <> None ->
  body r = Json data ->
  get_prop data (lit "success") = inr success ->
  truthy success = true ->
  get_prop data (lit "data") = inr storyData ->
  get_prop storyData (lit "elements") = inr (JArr js) ->
  forallb readable js = true ->
  let once := final (loadStoryLogic storyId (Fulfilled r) w) in
  let twice := final (loadStoryLogic storyId (Fulfilled r) once) in
  characters_list twice = characters_list once /\
  locations_list twice = locations_list once /\
  characters_list once =
    Some (map character_li (filter (has_type (lit "character")) js)).
Proof.
  intros Hc Hl Hbody Hsuccess Htruthy Hdata Helements Hjs.
  destruct (loadStoryLogic_run w storyId r data success storyData js
              Hc Hl Hbody Hsuccess Hdata Htruthy Helements Hjs)
    as (w1 & Hrun1 & Hc1 & Hl1).
  assert (Hc1' : characters_list w1 <> None) by (rewrite Hc1; discriminate).
  assert (Hl1' : locations_list w1 <> None) by (rewrite Hl1; discriminate).
  destruct (loadStoryLogic_run w1 storyId r data success storyData js
              Hc1' Hl1' Hbody Hsuccess Hdata Htruthy Helements Hjs)
    as (w2 & Hrun2 & Hc2 & Hl2).
  simpl. rewrite Hrun1. simpl. rewrite Hrun2. simpl.
  rewrite Hc1, Hc2, Hl1, Hl2. auto.
Qed.

(* ===================================================================== *)
(** ** Expansion proposals *)
(* ===================================================================== *)

Section Proposal.

Variable w : World.
Variables x p : jsstring.
Hypothesis Htext : expansion_text w = Some x.
Hypothesis Hpage : expansion_page w = Some p.

(** X25. A proposal whose text is blank is turned down before anything
    else is looked at: whether or not a story is selected, the one
    notification asks for an idea, no request goes out, and the dialog,
    the text field and the transcript are as they were. *)
Theorem submitExpansion_blank_is_turned_down (net : Settled) :
  trim x = [] ->
  let w' := final (submitExpansion net w) in
  returned (submitExpansion net w) = true /\
  error_divs w' =
    error_divs w ++ [(next_node w, lit "Please enter your expansion idea.")] /\
  requests w' = requests w /\
  expansion_modal w' = expansion_modal w /\
  expansion_text w' = Some x /\
  chat_messages w' = chat_messages w.
Proof.
  intros Hblank. unfold submitExpansion; run.
  rewrite Htext; simpl. rewrite Hpage; simpl. rewrite Hblank.
  unfold showError, setTimeout; run. repeat split; auto.
Qed.

Variable story : Story.
Variable nodes : list Node.
Hypothesis Hfull : trim x <> [].
Hypothesis Hstory : currentStory w = Some story.
Hypothesis Hnodes : chat_messages w = Some nodes.

Ltac submit_cases :=
  unfold expansion_request; unfold submitExpansion; run;
  rewrite Htext; simpl; rewrite Hpage; simpl;
  destruct (trim x) as [|c rest] eqn:E; [congruence|];
  rewrite Hstory; simpl;
  unfold fetch, fetch_with, json; run.

(** X26. When the answer to a proposal has a truthy [success], whatever
    its status, the request carried the story's id, the trimmed text, the
    page number read from the page field and no element references; the
    confirmation is added to the transcript and to the in-memory list as
    a bot message, the dialog is hidden, the text field is emptied and no
    notification appears. *)
Theorem submitExpansion_accepted (r : Response) (data success : JsValue) :
  body r = Json data ->
  get_prop data (lit "success") = inr success ->
  truthy success = true ->
  let w' := final (submitExpansion (Fulfilled r) w) in
  returned (submitExpansion (Fulfilled r) w) = true /\
  requests w' = requests w ++ [expansion_request story x p] /\
  chat_messages w' =
    Some (nodes ++ [messageDiv (JStr confirmation_text) (JStr (lit "bot"))]) /\
  messages w' =
    messages w ++ [{| msg_text := JStr confirmation_text;
                      msg_sender := JStr (lit "bot");
                      msg_timestamp := clock w |}] /\
  expansion_modal w' =
    option_map (fun _ => lit "none") (expansion_modal w) /\
  expansion_text w' = Some [] /\
  error_divs w' = error_divs w.
Proof.
  intros Hbody Hsuccess Htruthy. submit_cases.
  rewrite Hbody. simpl. rewrite Hsuccess. simpl. rewrite Htruthy.
  unfold addMessage, closeExpansionModal; run. rewrite Hnodes. simpl.
  rewrite Htext. simpl. repeat split; reflexivity.
Qed.

(** X27. However the request settles, a proposal with a story selected
    and a text that is not blank returns normally having sent exactly one
    request, and ends in one of two ways: the confirmation is in the
    transcript, the text field is empty and no notification appeared; or
    exactly one notification appeared and the text field, the dialog and
    the transcript are as they were, ready for another try. *)
Theorem submitExpansion_confirms_or_reports (net : Settled) :
  let w' := final (submitExpansion net w) in
  returned (submitExpansion net w) = true /\
  requests w' = requests w ++ [expansion_request story x p] /\
  ((error_divs w' = error_divs w /\
    expansion_text w' = Some [] /\
    chat_messages w' =
      Some (nodes ++ [messageDiv (JStr confirmation_text)
                        (JStr (lit "bot"))])) \/
   (exists msg,
      error_divs w' = error_divs w ++ [(next_node w, msg)] /\
      expansion_text w' = Some x /\
      expansion_modal w' = expansion_modal w /\
      chat_messages w' = Some nodes)).
Proof.
  submit_cases.
  destruct net as [m|r]; simpl.
  - unfold console_error, showError, setTimeout; run.
    repeat split; auto. right. eauto.
  - destruct (body r) as [m|data]; simpl.
    + unfold console_error, showError, setTimeout; run.
      repeat split; auto. right. eauto.
    + destruct (get_prop data (lit "success")) as [e|success]; simpl.
      * unfold console_error, showError, setTimeout; run.
        repeat split; auto. right. eauto.
      * destruct (truthy success).
        -- unfold addMessage, closeExpansionModal; run.
           rewrite Hnodes. simpl. rewrite Htext. simpl.
           repeat split; auto.
        -- unfold showError, setTimeout; run.
           repeat split; auto. right. eauto.
Qed.

End Proposal.

(* ===================================================================== *)
(** ** Notifications *)
(* ===================================================================== *)

Lemma filter_fresh (n : nat) (divs : list (nat * jsstring)) :
  Forall (fun d => fst d < n) divs ->
  filter (fun d => negb (Nat.eqb (fst d) n)) divs = divs.
Proof.
  induction 1 as [|d divs Hd _ IH]; simpl; [reflexivity|].
  destruct (Nat.eqb_spec (fst d) n); [lia|]. simpl. now rewrite IH.
Qed.

(** X28. A notification shown on a page whose notifications are all older
    is added after them, with a timer of three seconds; when that timer
    fires, the notification is gone and the others are as they were. *)
Theorem showError_then_timer_removes_it (w : World) (msg : jsstring)
  (net : Settled) :
  fresh_ids w ->
  let shown := final (showError msg w) in
  error_divs shown = error_divs w ++ [(next_node w, msg)] /\
  timers shown = timers w ++ [(3000%N, RemoveErrorDiv (next_node w))] /\
  fresh_ids shown /\
  error_divs (final (fire (RemoveErrorDiv (next_node w)) net shown)) =
    error_divs w.
Proof.
  intros Hfresh.
  assert (Hshown : showError msg w =
                   Ok tt (set_timers
                            (timers w ++ [(3000%N, RemoveErrorDiv (next_node w))])
                            (set_error_divs
                               (error_divs w ++ [(next_node w, msg)])
                               (set_next_node (S (next_node w)) w))))
    by reflexivity.
  rewrite Hshown. simpl.
  split; [reflexivity|]. split; [reflexivity|]. split.
  - unfold fresh_ids in *. simpl. apply Forall_app. split.
    + eapply Forall_impl; [|exact Hfresh]. simpl. intros; lia.
    + constructor; [simpl; lia|constructor].
  - unfold fire; run.
    destruct (take_timer_last (RemoveErrorDiv (next_node w)) 3000 (timers w))
      as [rest Hrest].
    rewrite Hrest. unfold removeErrorDiv; run.
    rewrite filter_app, (filter_fresh _ _ Hfresh). simpl.
    rewrite Nat.eqb_refl. simpl. apply app_nil_r.
Qed.

(* ===================================================================== *)
(** ** Escaping *)
(* ===================================================================== *)

Lemma escape_unit_no_markup (c : N) :
  Forall (fun u => u <> 60%N /\ u <> 62%N) (escape_unit c).
Proof.
  unfold escape_unit.
  destruct (N.eqb_spec c 38); [repeat constructor; discriminate|].
  destruct (N.eqb_spec c 160); [repeat constructor; discriminate|].
  destruct (N.eqb_spec c 60); [repeat constructor; discriminate|].
  destruct (N.eqb_spec c 62); [repeat constructor; discriminate|].
  repeat constructor; assumption.
Qed.

Lemma escape_text_no_markup (s : jsstring) :
  Forall (fun u => u <> 60%N /\ u <> 62%N) (escape_text s).
Proof.
  induction s as [|c s IH]; simpl; [constructor|].
  apply Forall_app. split; [apply escape_unit_no_markup|exact IH].
Qed.

Lemma escape_text_plain (s : jsstring) :
  Forall (fun c => c <> 38%N /\ c <> 160%N /\ c <> 60%N /\ c <> 62%N) s ->
  escape_text s = s.
Proof.
  induction 1 as [|c s (H1 & H2 & H3 & H4) _ IH]; simpl; [reflexivity|].
  unfold escape_unit.
  destruct (N.eqb_spec c 38); [contradiction|].
  destruct (N.eqb_spec c 160); [contradiction|].
  destruct (N.eqb_spec c 60); [contradiction|].
  destruct (N.eqb_spec c 62); [contradiction|].
  simpl. now rewrite IH.
Qed.

(** X29. What [escapeHtml] and [sanitizeInput] return never holds an
    angle bracket, whatever they are given; and a text without
    ampersand, no-break space and angle brackets comes back unchanged. *)
Theorem escapeHtml_has_no_markup (v : JsValue) (s : jsstring) :
  Forall (fun u => u <> 60%N /\ u <> 62%N) (escapeHtml v) /\
  Forall (fun u => u <> 60%N /\ u <> 62%N) (sanitizeInput v) /\
  (Forall (fun c => c <> 38%N /\ c <> 160%N /\ c <> 60%N /\ c <> 62%N) s ->
   escapeHtml (JStr s) = s /\ sanitizeInput (JStr s) = s).
Proof.
  split; [apply escape_text_no_markup|].
  split; [apply escape_text_no_markup|].
  intros Hplain. split; apply escape_text_plain, Hplain.
Qed.

Lemma escape_text_injective (a : jsstring) :
  forall b, escape_text a = escape_text b -> a = b.
Proof.
  induction a as [|c a IH]; intros [|d b] H.
  - reflexivity.
  - exfalso. simpl in H. unfold escape_unit in H.
    destruct (N.eqb d 38), (N.eqb d 160), (N.eqb d 60), (N.eqb d 62);
      discriminate.
  - exfalso. simpl in H. unfold escape_unit in H.
    destruct (N.eqb c 38), (N.eqb c 160), (N.eqb c 60), (N.eqb c 62);
      discriminate.
  - simpl in H. unfold escape_unit in H.
    destruct (N.eqb_spec c 38), (N.eqb_spec c 160), (N.eqb_spec c 60),
      (N.eqb_spec c 62), (N.eqb_spec d 38), (N.eqb_spec d 160),
      (N.eqb_spec d 60), (N.eqb_spec d 62);
      simpl in H; subst; try discriminate; try congruence;
      injection H; intros; subst; try congruence;
      f_equal; apply IH; assumption.
Qed.

(** X30. Escaping loses nothing: two texts that [escapeHtml] writes the
    same way are the same text. *)
Theorem escapeHtml_is_injective (a b : jsstring) :
  escapeHtml (JStr a) = escapeHtml (JStr b) -> a = b.
Proof. apply escape_text_injective. Qed.

(* ===================================================================== *)
(** ** The further properties on the example session *)
(* ===================================================================== *)

Lemma fileChanged_shows_choice_example :
  UploadFlow.complete UploadFlow.idle = true /\
  UploadFlow.selectedFileName
    (final (UploadFlow.fileChanged (Some UploadFlow.story_pdf)
              UploadFlow.idle)) = Some (lit "story.pdf") /\
  UploadFlow.confirmUploadBtn
    (final (UploadFlow.fileChanged (Some UploadFlow.story_pdf)
              UploadFlow.idle)) = Some false.
Proof.
  split; [reflexivity|].
  destruct (fileChanged_shows_choice UploadFlow.idle
              (Some UploadFlow.story_pdf) eq_refl)
    as (_ & _ & Hlabel & Hconfirm & _).
  split; [exact Hlabel|exact Hconfirm].
Defined.

Lemma confirmUpload_settles_example :
  (UploadFlow.complete UploadFlow.ready = true /\
   UploadFlow.pdfFileInput UploadFlow.ready =
     Some (Some UploadFlow.story_pdf)) /\
  UploadFlow.requests
    (final (UploadFlow.confirmUpload offline UploadFlow.ready)) =
    [UploadFlow.upload_request UploadFlow.story_pdf] /\
  UploadFlow.cancelUploadBtn
    (final (UploadFlow.confirmUpload offline UploadFlow.ready)) = Some false.
Proof.
  split; [split; reflexivity|].
  destruct (confirmUpload_settles UploadFlow.ready UploadFlow.story_pdf
              offline eq_refl eq_refl)
    as (_ & Hrq & _ & Hcancel & _).
  split; [exact Hrq|exact Hcancel].
Defined.

Lemma confirmUpload_success_example :
  (UploadFlow.complete UploadFlow.ready = true /\
   UploadFlow.pdfFileInput UploadFlow.ready =
     Some (Some UploadFlow.story_pdf) /\
   ok UploadFlow.accepted = true /\
   body UploadFlow.accepted = Json (JObj [])) /\
  UploadFlow.timers
    (final (UploadFlow.confirmUpload (Fulfilled UploadFlow.accepted)
              UploadFlow.ready)) = [(1000%N, ReloadPage)].
Proof.
  split; [repeat split; reflexivity|].
  destruct (confirmUpload_success UploadFlow.ready UploadFlow.story_pdf
              UploadFlow.accepted (JObj []) eq_refl eq_refl eq_refl eq_refl)
    as (_ & _ & Ht & _).
  exact Ht.
Defined.

Lemma confirmUpload_transport_failure_example :
  (UploadFlow.complete UploadFlow.ready = true /\
   UploadFlow.pdfFileInput UploadFlow.ready =
     Some (Some UploadFlow.story_pdf) /\
   transport_failure offline = Some (TypeError (lit "Failed to fetch")) /\
   (forall r, offline = Fulfilled r -> ok r = true)) /\
  UploadFlow.uploadStatus
    (final (UploadFlow.confirmUpload offline UploadFlow.ready)) =
    Some {| UploadFlow.textContent := lit "Error: Failed to fetch";
            UploadFlow.color := lit "red" |}.
Proof.
  assert (Hstatus : forall r, offline = Fulfilled r -> ok r = true)
    by (intros r H; discriminate H).
  split; [repeat split; try reflexivity; exact Hstatus|].
  destruct (confirmUpload_transport_failure UploadFlow.ready
              UploadFlow.story_pdf offline
              (TypeError (lit "Failed to fetch"))
              eq_refl eq_refl eq_refl Hstatus)
    as (Hs & _).
  exact Hs.
Defined.

Lemma retry_shows_success_in_red_example :
  (UploadFlow.complete UploadFlow.ready = true /\
   UploadFlow.pdfFileInput UploadFlow.ready =
     Some (Some UploadFlow.story_pdf) /\
   ok UploadFlow.server_error = false /\
   ok UploadFlow.accepted = true /\
   body UploadFlow.accepted = Json (JObj [])) /\
  UploadFlow.uploadStatus
    (final (UploadFlow.confirmUpload (Fulfilled UploadFlow.accepted)
              UploadFlow.refused)) =
    Some {| UploadFlow.textContent :=
              lit "Upload successful! Loading story...";
            UploadFlow.color := lit "red" |}.
Proof.
  split; [repeat split; reflexivity|].
  exact (retry_shows_success_in_red UploadFlow.ready UploadFlow.story_pdf
           UploadFlow.server_error UploadFlow.accepted (JObj [])
           eq_refl eq_refl eq_refl eq_refl eq_refl).
Defined.

Lemma dismiss_then_open_restores_example :
  UploadFlow.pdfUploadModal UploadFlow.ready = Some (lit "block") /\
  final (UploadFlow.openModal (final (UploadFlow.dismissModal UploadFlow.ready)))
    = UploadFlow.ready.
Proof.
  split; [reflexivity|].
  destruct (dismiss_then_open_restores UploadFlow.ready eq_refl)
    as (_ & _ & H).
  exact H.
Defined.

Lemma cancel_then_confirm_sends_nothing_example :
  UploadFlow.complete UploadFlow.refused = true /\
  UploadFlow.requests
    (final (UploadFlow.confirmUpload (Fulfilled UploadFlow.accepted)
              (final (UploadFlow.cancelUpload UploadFlow.refused)))) =
    [UploadFlow.upload_request UploadFlow.story_pdf].
Proof.
  split; [reflexivity|].
  rewrite (cancel_then_confirm_sends_nothing UploadFlow.refused
             (Fulfilled UploadFlow.accepted) eq_refl).
  reflexivity.
Defined.


Lemma chatting_is_ready :
  message_input chatting = Some (lit "hi") /\
  trim (lit "hi") <> [] /\
  currentStory chatting = Some the_fox /\
  chat_messages chatting =
    Some [welcome_node; SystemDiv (lit "Selected story: The Fox")].
Proof.
  split; [reflexivity|]. split; [vm_compute; discriminate|].
  split; reflexivity.
Qed.

Lemma sendMessage_settles_example :
  (message_input chatting = Some (lit "hi") /\
   trim (lit "hi") <> [] /\
   currentStory chatting = Some the_fox /\
   chat_messages chatting =
     Some [welcome_node; SystemDiv (lit "Selected story: The Fox")]) /\
  message_input (final (sendMessage offline chatting)) = Some [] /\
  send_btn (final (sendMessage offline chatting)) = Some send_ready.
Proof.
  split; [exact chatting_is_ready|].
  destruct chatting_is_ready as (Hi & Hf & Hs & Hn).
  destruct (sendMessage_settles chatting (lit "hi") the_fox _ Hi Hf Hs Hn
              offline)
    as (_ & _ & _ & Hinput & _ & Hbtn).
  split; [exact Hinput|exact Hbtn].
Defined.

Lemma sendMessage_refused_example :
  ((message_input chatting = Some (lit "hi") /\
    trim (lit "hi") <> [] /\
    currentStory chatting = Some the_fox /\
    chat_messages chatting =
      Some [welcome_node; SystemDiv (lit "Selected story: The Fox")]) /\
   ok (json_response 500 "Internal Server Error" (JObj [])) = false) /\
  error_divs
    (final (sendMessage
              (Fulfilled (json_response 500 "Internal Server Error" (JObj [])))
              chatting)) =
    [(0, lit "Failed to send message. Please try again.")].
Proof.
  split; [split; [exact chatting_is_ready|reflexivity]|].
  destruct chatting_is_ready as (Hi & Hf & Hs & Hn).
  destruct (sendMessage_refused chatting (lit "hi") the_fox _ Hi Hf Hs Hn
              (json_response 500 "Internal Server Error" (JObj []))
              (JObj []) eq_refl eq_refl)
    as (He & _).
  exact He.
Defined.

Lemma sendMessage_transport_failure_example :
  ((message_input chatting = Some (lit "hi") /\
    trim (lit "hi") <> [] /\
    currentStory chatting = Some the_fox /\
    chat_messages chatting =
      Some [welcome_node; SystemDiv (lit "Selected story: The Fox")]) /\
   transport_failure offline = Some (TypeError (lit "Failed to fetch"))) /\
  error_divs (final (sendMessage offline chatting)) =
    [(0, lit "Failed to send message. Please check your connection.")].
Proof.
  split; [split; [exact chatting_is_ready|reflexivity]|].
  destruct chatting_is_ready as (Hi & Hf & Hs & Hn).
  destruct (sendMessage_transport_failure chatting (lit "hi") the_fox _
              Hi Hf Hs Hn offline (TypeError (lit "Failed to fetch"))
              eq_refl)
    as (He & _).
  exact He.
Defined.

Lemma dispatch_keeps_mirror_example :
  mirrored started /\
  mirrored
    (dispatch
       [StoryHeld the_fox; NoticeAdded (lit "Selected story: The Fox");
        LogicLoaded (lit "s1") (ok_json fox_logic);
        Typed (lit "hi"); SendClicked offline;
        ProposeClicked; ProposalTyped (lit "add a dragon") (lit "3");
        SubmitClicked (ok_json (JObj [(lit "success", JBool true)]));
        ErrorTimerFired 0; ClearClicked; Typed (lit "again");
        SendClicked (ok_json (JObj []))]
       started).
Proof.
  assert (H : mirrored started) by reflexivity.
  split; [exact H|]. apply dispatch_keeps_mirror. exact H.
Defined.

Lemma loadMessages_is_silent_example :
  currentStory typing_early = None /\
  loadMessages (ok_json server_transcript) typing_early = Ok tt typing_early.
Proof.
  split; [reflexivity|].
  destruct (loadMessages_is_silent typing_early (ok_json server_transcript))
    as (_ & _ & _ & _ & _ & H).
  exact (H eq_refl).
Defined.

Lemma loadMessages_failure_keeps_transcript_example :
  (currentStory chatting = Some the_fox /\
   chat_messages chatting =
     Some [welcome_node; SystemDiv (lit "Selected story: The Fox")] /\
   transport_failure offline = Some (TypeError (lit "Failed to fetch"))) /\
  chat_messages (final (loadMessages offline chatting)) =
    Some [welcome_node; SystemDiv (lit "Selected story: The Fox")].
Proof.
  split; [repeat split; reflexivity|].
  destruct (loadMessages_failure_keeps_transcript chatting the_fox _
              eq_refl eq_refl offline (TypeError (lit "Failed to fetch"))
              eq_refl)
    as (Hc & _).
  exact Hc.
Defined.

Lemma loadMessages_not_array_drops_transcript_example :
  (currentStory chatting = Some the_fox /\
   chat_messages chatting =
     Some [welcome_node; SystemDiv (lit "Selected story: The Fox")] /\
   body (ok_response (JObj [])) = Json (JObj []) /\
   is_array (JObj []) = false) /\
  chat_messages (final (loadMessages (ok_json (JObj [])) chatting)) =
    Some [welcome_node].
Proof.
  split; [repeat split; reflexivity|].
  destruct (loadMessages_not_array_drops_transcript chatting the_fox _
              eq_refl eq_refl (ok_response (JObj [])) (JObj [])
              eq_refl eq_refl)
    as (Hc & _).
  exact Hc.
Defined.

Lemma loadMessages_twice_same_transcript_example :
  (currentStory chatting = Some the_fox /\
   chat_messages chatting =
     Some [welcome_node; SystemDiv (lit "Selected story: The Fox")] /\
   retained [welcome_node; SystemDiv (lit "Selected story: The Fox")]
     <> []) /\
  chat_messages
    (final (loadMessages (ok_json server_transcript)
              (final (loadMessages (ok_json server_transcript) chatting)))) =
    Some [welcome_node;
          messageDiv (JStr (lit "hi")) (JStr (lit "user"));
          messageDiv (JStr (lit "Hello there")) (JStr (lit "bot"))].
Proof.
  assert (Hkept : retained
                    [welcome_node; SystemDiv (lit "Selected story: The Fox")]
                  <> []) by (vm_compute; discriminate).
  split; [repeat split; try reflexivity; exact Hkept|].
  refine (eq_trans
            (loadMessages_twice_same_transcript chatting the_fox _
               eq_refl eq_refl (ok_response server_transcript)
               [server_message "hi" "user";
                server_message "Hello there" "bot"]
               eq_refl eq_refl Hkept) _).
  reflexivity.
Defined.

Lemma loadMessages_twice_repeats_first_bot_example :
  (currentStory no_welcome = Some the_fox /\
   chat_messages no_welcome =
     Some [SystemDiv (lit "Selected story: The Fox")] /\
   retained [SystemDiv (lit "Selected story: The Fox")] = []) /\
  chat_messages
    (final (loadMessages (ok_json server_transcript)
              (final (loadMessages (ok_json server_transcript) no_welcome)))) =
    Some [messageDiv (JStr (lit "Hello there")) (JStr (lit "bot"));
          messageDiv (JStr (lit "hi")) (JStr (lit "user"));
          messageDiv (JStr (lit "Hello there")) (JStr (lit "bot"))].
Proof.
  split; [repeat split; reflexivity|].
  destruct (loadMessages_twice_repeats_first_bot no_welcome the_fox _
              eq_refl eq_refl (ok_response server_transcript)
              [server_message "hi" "user"; server_message "Hello there" "bot"]
              eq_refl eq_refl
              (messageDiv (JStr (lit "Hello there")) (JStr (lit "bot")))
              eq_refl eq_refl)
    as (_ & H & _).
  exact H.
Defined.


Lemma new_StoryWeaverApp_starts_example :
  chat_messages fresh_page = Some [] /\
  chat_messages (final (new_StoryWeaverApp offline fresh_page)) =
    Some [welcome_node] /\
  mirrored (final (new_StoryWeaverApp offline fresh_page)).
Proof.
  split; [reflexivity|].
  destruct (new_StoryWeaverApp_starts fresh_page [] offline eq_refl)
    as (_ & _ & _ & Hc & _ & Hm).
  split; [exact Hc|exact (Hm eq_refl)].
Defined.

Lemma loadStories_reports_missing_catalogue_example :
  no_catalogue (ok_json (JObj [(lit "stories", JArr [])])) = false /\
  no_catalogue (ok_json (JObj [(lit "story", JArr [])])) = true /\
  stories_list
    (final (loadStories (ok_json (JObj [(lit "story", JArr [])]))
              page_with_story)) = Some [story_item the_fox_json] /\
  error_divs
    (final (loadStories (ok_json (JObj [(lit "story", JArr [])]))
              page_with_story)) = [(0, load_stories_failed)].
Proof.
  split; [reflexivity|]. split; [reflexivity|].
  exact (loadStories_reports_missing_catalogue page_with_story
           (ok_json (JObj [(lit "story", JArr [])])) eq_refl).
Defined.

Lemma loadStories_lists_catalogue_example :
  (stories_list page_with_story <> None /\
   get_prop catalogue (lit "stories") = inr (JArr (map story_json [the_fox]))) /\
  stories_list
    (final (loadStories
              (Fulfilled (json_response 500 "Internal Server Error" catalogue))
              page_with_story)) = Some [item_of_story the_fox].
Proof.
  assert (Hlist : stories_list page_with_story <> None)
    by (vm_compute; discriminate).
  split; [split; [exact Hlist|reflexivity]|].
  destruct (loadStories_lists_catalogue page_with_story
              (json_response 500 "Internal Server Error" catalogue)
              catalogue [the_fox] Hlist eq_refl eq_refl)
    as (Hl & _).
  exact Hl.
Defined.

Lemma loadStoryLogic_twice_same_views_example :
  (characters_list started <> None /\ locations_list started <> None) /\
  characters_list
    (final (loadStoryLogic (lit "s1") (ok_json fox_logic)
              (final (loadStoryLogic (lit "s1") (ok_json fox_logic) started))))
    = Some [lit "Fox (a sly fox)"; lit "Hen (wary)"].
Proof.
  assert (Hc : characters_list started <> None) by (vm_compute; discriminate).
  assert (Hl : locations_list started <> None) by (vm_compute; discriminate).
  split; [split; assumption|].
  destruct (loadStoryLogic_twice_same_views started (lit "s1")
              (ok_response fox_logic) fox_logic (JBool true) fox_logic_data
              (map element_json fox_elements)
              Hc Hl eq_refl eq_refl eq_refl eq_refl eq_refl eq_refl)
    as (Hsame & _ & Honce).
  refine (eq_trans Hsame (eq_trans Honce _)). reflexivity.
Defined.

Lemma submitExpansion_blank_example :
  (expansion_text proposing_blank = Some (lit "   ") /\
   expansion_page proposing_blank = Some (lit "3") /\
   trim (lit "   ") = []) /\
  error_divs (final (submitExpansion offline proposing_blank)) =
    [(0, lit "Please enter your expansion idea.")] /\
  requests (final (submitExpansion offline proposing_blank)) =
    requests proposing_blank.
Proof.
  split; [repeat split; reflexivity|].
  destruct (submitExpansion_blank_is_turned_down proposing_blank
              (lit "   ") (lit "3") eq_refl eq_refl offline eq_refl)
    as (_ & He & Hr & _).
  split; [exact He|exact Hr].
Defined.

Lemma proposing_is_ready :
  expansion_text proposing = Some (lit "  add a dragon ") /\
  expansion_page proposing = Some (lit "3") /\
  trim (lit "  add a dragon ") <> [] /\
  currentStory proposing = Some the_fox /\
  chat_messages proposing =
    Some [welcome_node; SystemDiv (lit "Selected story: The Fox")].
Proof.
  split; [reflexivity|]. split; [reflexivity|].
  split; [vm_compute; discriminate|]. split; reflexivity.
Qed.

Lemma submitExpansion_accepted_example :
  (expansion_text proposing = Some (lit "  add a dragon ") /\
   expansion_page proposing = Some (lit "3") /\
   trim (lit "  add a dragon ") <> [] /\
   currentStory proposing = Some the_fox /\
   chat_messages proposing =
     Some [welcome_node; SystemDiv (lit "Selected story: The Fox")]) /\
  expansion_modal
    (final (submitExpansion (ok_json (JObj [(lit "success", JBool true)]))
              proposing)) = Some (lit "none") /\
  expansion_text
    (final (submitExpansion (ok_json (JObj [(lit "success", JBool true)]))
              proposing)) = Some [] /\
  req_body (expansion_request the_fox (lit "  add a dragon ") (lit "3")) =
    ExpansionBody (lit "s1") (lit "add a dragon") (Some 3%Z) [].
Proof.
  split; [exact proposing_is_ready|].
  destruct proposing_is_ready as (Ht & Hp & Hf & Hs & Hn).
  destruct (submitExpansion_accepted proposing (lit "  add a dragon ")
              (lit "3") Ht Hp the_fox _ Hf Hs Hn
              (ok_response (JObj [(lit "success", JBool true)]))
              (JObj [(lit "success", JBool true)]) (JBool true)
              eq_refl eq_refl eq_refl)
    as (_ & _ & _ & _ & Hmodal & Htext & _).
  split; [exact Hmodal|]. split; [exact Htext|reflexivity].
Defined.

Lemma submitExpansion_confirms_or_reports_example :
  (expansion_text proposing = Some (lit "  add a dragon ") /\
   expansion_page proposing = Some (lit "3") /\
   trim (lit "  add a dragon ") <> [] /\
   currentStory proposing = Some the_fox /\
   chat_messages proposing =
     Some [welcome_node; SystemDiv (lit "Selected story: The Fox")]) /\
  requests
    (final (submitExpansion (ok_json (JObj [(lit "success", JBool false)]))
              proposing)) =
    requests proposing ++
      [expansion_request the_fox (lit "  add a dragon ") (lit "3")].
Proof.
  split; [exact proposing_is_ready|].
  destruct proposing_is_ready as (Ht & Hp & Hf & Hs & Hn).
  destruct (submitExpansion_confirms_or_reports proposing
              (lit "  add a dragon ") (lit "3") Ht Hp the_fox _ Hf Hs Hn
              (ok_json (JObj [(lit "success", JBool false)])))
    as (_ & Hr & _).
  exact Hr.
Defined.

Lemma notified_is_fresh : fresh_ids notified.
Proof. repeat constructor. Qed.

Lemma showError_then_timer_removes_it_example :
  fresh_ids notified /\
  error_divs notified = [(0, lit "Please select a story first.")] /\
  error_divs (final (showError (lit "again") notified)) =
    [(0, lit "Please select a story first."); (1, lit "again")] /\
  error_divs
    (final (fire (RemoveErrorDiv 1) offline
              (final (showError (lit "again") notified)))) =
    [(0, lit "Please select a story first.")].
Proof.
  split; [exact notified_is_fresh|]. split; [reflexivity|].
  destruct (showError_then_timer_removes_it notified (lit "again") offline
              notified_is_fresh)
    as (Hshown & _ & _ & Hgone).
  split; [exact Hshown|exact Hgone].
Defined.

Lemma escapeHtml_has_no_markup_example :
  escapeHtml (JStr (lit "if a<b & b>c")) = lit "if a&lt;b &amp; b&gt;c" /\
  escapeHtml (JStr (lit "The Fox")) = lit "The Fox".
Proof.
  split; [reflexivity|].
  destruct (escapeHtml_has_no_markup JNull (lit "The Fox")) as (_ & _ & H).
  apply H. repeat constructor; discriminate.
Defined.

Lemma escapeHtml_is_injective_example :
  escapeHtml (JStr (lit "<b>")) = escapeHtml (JStr (lit "<b>")) /\
  lit "<b>" = lit "<b>".
Proof.
  split; [reflexivity|].
  exact (escapeHtml_is_injective (lit "<b>") (lit "<b>") eq_refl).
Defined.
